(** * util.crypto: the Lua binding to OpenSSL (util-src/crypto.c)

    A shallow embedding of the C glue code.  The OpenSSL library is not part
    of the code base: it appears as a record of operations over an abstract
    library state, and the calls of the signing, cipher, key generation and
    import functions are recorded in a call log.
    The Lua side is reduced to what the file uses: argument values, the
    errors raised through [luaL_error] / [luaL_argerror], and the fixed-size
    scratch buffers of the auxiliary library.

    Lengths ([size_t], [int]) are natural numbers: the conversions between
    the two C types are left out, which is exact for strings of fewer than
    2^31 bytes.  Pointers are integers with [NULL = 0]; bytes are
    [Byte.byte].  The bignums and [ECDSA_SIG] objects of the signature codec
    are plain values: allocating them does not fail. *)

From Stdlib Require Import ZArith List String Lia Bool.
From Stdlib.Strings Require Import Byte.
From stdpp Require Import gmap strings.
Import ListNotations.

Local Open Scope Z_scope.

(** ** Bytes and big-endian integers *)

Definition bytes := list byte.

Definition ptr := Z.
Definition NULL : ptr := 0.

Definition byte_of_Z (z : Z) : byte :=
  match Byte.of_N (Z.to_N (z mod 256)) with
  | Some b => b
  | None => x00
  end.

Definition Z_of_byte (b : byte) : Z := Z.of_N (Byte.to_N b).

(** The [len] low-order bytes of [m], most significant first. *)
Fixpoint be_encode (len : nat) (m : Z) : bytes :=
  match len with
  | O => []
  | S k => byte_of_Z (m / 256 ^ Z.of_nat k) :: be_encode k m
  end.

Definition be_decode (s : bytes) : Z :=
  fold_left (fun acc b => acc * 256 + Z_of_byte b) s 0.

(** *** OpenSSL bignums

    A [BIGNUM] is a sign and a magnitude.  [BN_num_bytes] is the macro
    [(BN_num_bits(a)+7)/8]; [BN_bn2bin] writes exactly that many bytes, the
    magnitude in big-endian form; [BN_bin2bn] reads a big-endian magnitude
    and yields a non-negative number. *)

Definition BIGNUM := Z.

Definition BN_num_bits (a : BIGNUM) : Z :=
  if Z.abs a =? 0 then 0 else Z.log2 (Z.abs a) + 1.

Definition BN_num_bytes (a : BIGNUM) : nat :=
  Z.to_nat ((BN_num_bits a + 7) / 8).

Definition BN_bn2bin (a : BIGNUM) : bytes :=
  be_encode (BN_num_bytes a) (Z.abs a).

Definition BN_bin2bn (s : bytes) : BIGNUM := be_decode s.

(** ** Scratch buffers

    A [luaL_Buffer] region handed out by [luaL_prepbuffsize]: a fixed number
    of cells, none of them initialised.  Writing past the end or pushing a
    cell that was never written has no defined behaviour in C; both are
    reported by [None]. *)

Definition buffer := list (option byte).

Definition luaL_prepbuffsize (sz : nat) : buffer := repeat None sz.

Definition store (b : buffer) (off : nat) (data : bytes) : option buffer :=
  if (off + length data <=? length b)%nat
  then Some (firstn off b ++ map Some data ++ skipn (off + length data) b)
  else None.

Fixpoint initialised (cells : list (option byte)) : option bytes :=
  match cells with
  | [] => Some []
  | Some x :: rest =>
      match initialised rest with
      | Some xs => Some (x :: xs)
      | None => None
      end
  | None :: _ => None
  end.


(** ** Lua values

    The values the functions of this file tell apart: [nil], booleans,
    strings and key objects.  Numbers, which the string checks of the
    auxiliary library would convert to strings, are left out. *)

(** What the key's user value table holds. *)
Inductive field : Type :=
| FInteger (i : Z)
| FBoolean (b : bool).

(** A userdata carrying the [PKEY_MT_TAG] metatable: the native key pointer
    and the attached user value table. *)
Record pkey_ud : Type := {
  ud_pkey : ptr;
  ud_uservalue : gmap string field
}.

Inductive lua_value : Type :=
| LNil
| LBoolean (b : bool)
| LString (s : bytes)
| LKey (k : pkey_ud).

Definition PKEY_MT_TAG : string := "util.crypto key".

Definition lua_getfield (t : gmap string field) (k : string) : option field :=
  t !! k.

Definition lua_tointeger (v : option field) : Z :=
  match v with
  | Some (FInteger i) => i
  | _ => 0
  end.

Definition lua_toboolean (v : option field) : Z :=
  match v with
  | None => 0
  | Some (FBoolean false) => 0
  | Some _ => 1
  end.

Definition lua_gettop (args : list lua_value) : nat := length args.

(** Stack slot [idx], counted from 1. *)
Definition lua_arg (args : list lua_value) (idx : nat) : option lua_value :=
  match idx with
  | O => None
  | S i => nth_error args i
  end.

(** ** Errors and outcomes *)

Inductive lua_error : Type :=
| luaL_error (fmt : string) (fmt_args : list Z)
| luaL_argerror (arg : nat) (extramsg : string)
| luaL_typeerror (arg : nat) (tname : string).

Inductive undefined : Type :=
| buffer_overrun
| uninitialised_read
| null_string
| negative_size.

Inductive outcome (A : Type) : Type :=
| Returns (a : A)
| Raises (e : lua_error)
| Undefined (u : undefined).

Arguments Returns {A} a.
Arguments Raises {A} e.
Arguments Undefined {A} u.

(** ** OpenSSL constants (obj_mac.h, rsa.h) *)

Definition NID_rsaEncryption : Z := 6.
Definition NID_X9_62_id_ecPublicKey : Z := 408.
Definition NID_rsassaPss : Z := 912.
Definition NID_ED25519 : Z := 1087.
Definition EVP_PKEY_ED25519 : Z := NID_ED25519.
Definition RSA_PKCS1_PSS_PADDING : Z := 6.

Inductive EVP_MD : Type := EVP_sha256.
Inductive EVP_CIPHER : Type := EVP_aes_128_gcm | EVP_aes_256_gcm.

(** ** The OpenSSL interface

    [W] is the library's own state (key objects, contexts, random pool).
    An output parameter becomes part of the result: [EVP_EncryptUpdate]
    returns its status and the bytes it wrote, whose number is the reported
    [*outl].  [EVP_DigestSign] comes in its two calling forms: the size query
    ([sigret = NULL]) and the call that fills a buffer of the announced size.
    [EVP_CIPHER_CTX_ctrl] appears as its two uses, named after the control
    code passed.  [EVP_PKEY_keygen] takes the current value of [*ppkey] and
    returns the new one with its status.
    The DER coder of [ECDSA_SIG] is a function of its argument alone;
    [i2d_ECDSA_SIG] yields [None] where the C function returns a negative
    length. *)

Record OpenSSL (W : Type) : Type := {
  EVP_PKEY_CTX_new_id : Z -> W -> ptr * W;
  EVP_PKEY_keygen_init : ptr -> W -> Z * W;
  EVP_PKEY_keygen : ptr -> ptr -> W -> (Z * ptr) * W;
  EVP_PKEY_CTX_free : ptr -> W -> W;
  EVP_PKEY_id : ptr -> W -> Z;
  BIO_new_mem : W -> ptr * W;
  BIO_write : ptr -> bytes -> W -> Z * W;
  PEM_read_bio_PrivateKey : ptr -> W -> ptr * W;
  PEM_read_bio_PUBKEY : ptr -> W -> ptr * W;
  EVP_MD_CTX_new : W -> ptr * W;
  EVP_MD_CTX_free : ptr -> W -> W;
  EVP_MD_CTX_pkey_ctx : ptr -> W -> ptr;
  EVP_DigestSignInit : ptr -> option EVP_MD -> ptr -> W -> Z * W;
  EVP_DigestVerifyInit : ptr -> option EVP_MD -> ptr -> W -> Z * W;
  EVP_PKEY_CTX_set_rsa_padding : ptr -> Z -> W -> Z * W;
  EVP_DigestSign_size : ptr -> bytes -> W -> (Z * nat) * W;
  EVP_DigestSign : ptr -> nat -> bytes -> W -> (Z * bytes) * W;
  EVP_DigestVerify : ptr -> bytes -> bytes -> W -> Z * W;
  EVP_CIPHER_CTX_new : W -> ptr * W;
  EVP_EncryptInit_ex :
    ptr -> option EVP_CIPHER -> option bytes -> option bytes -> W -> Z * W;
  EVP_EncryptUpdate : ptr -> bytes -> W -> (Z * bytes) * W;
  EVP_EncryptFinal_ex : ptr -> W -> (Z * bytes) * W;
  EVP_DecryptInit_ex :
    ptr -> option EVP_CIPHER -> option bytes -> option bytes -> W -> Z * W;
  EVP_DecryptUpdate : ptr -> bytes -> W -> (Z * bytes) * W;
  EVP_DecryptFinal_ex : ptr -> W -> (Z * bytes) * W;
  EVP_CTRL_AEAD_GET_TAG : ptr -> nat -> W -> (Z * bytes) * W;
  EVP_CTRL_AEAD_SET_TAG : ptr -> bytes -> W -> Z * W;
  d2i_ECDSA_SIG : bytes -> option (BIGNUM * BIGNUM);
  i2d_ECDSA_SIG : BIGNUM -> BIGNUM -> option bytes
}.

Arguments EVP_PKEY_CTX_new_id {W}.
Arguments EVP_PKEY_keygen_init {W}.
Arguments EVP_PKEY_keygen {W}.
Arguments EVP_PKEY_CTX_free {W}.
Arguments EVP_PKEY_id {W}.
Arguments BIO_new_mem {W}.
Arguments BIO_write {W}.
Arguments PEM_read_bio_PrivateKey {W}.
Arguments PEM_read_bio_PUBKEY {W}.
Arguments EVP_MD_CTX_new {W}.
Arguments EVP_MD_CTX_free {W}.
Arguments EVP_MD_CTX_pkey_ctx {W}.
Arguments EVP_DigestSignInit {W}.
Arguments EVP_DigestVerifyInit {W}.
Arguments EVP_PKEY_CTX_set_rsa_padding {W}.
Arguments EVP_DigestSign_size {W}.
Arguments EVP_DigestSign {W}.
Arguments EVP_DigestVerify {W}.
Arguments EVP_CIPHER_CTX_new {W}.
Arguments EVP_EncryptInit_ex {W}.
Arguments EVP_EncryptUpdate {W}.
Arguments EVP_EncryptFinal_ex {W}.
Arguments EVP_DecryptInit_ex {W}.
Arguments EVP_DecryptUpdate {W}.
Arguments EVP_DecryptFinal_ex {W}.
Arguments EVP_CTRL_AEAD_GET_TAG {W}.
Arguments EVP_CTRL_AEAD_SET_TAG {W}.
Arguments d2i_ECDSA_SIG {W}.
Arguments i2d_ECDSA_SIG {W}.

(** One entry of the call log: the function, its arguments, its result. *)
Inductive native_call : Type :=
| call_EVP_PKEY_CTX_new_id (id : Z) (ret : ptr)
| call_EVP_PKEY_keygen_init (pctx : ptr) (ret : Z)
| call_EVP_PKEY_keygen (pctx : ptr) (ret : Z) (pkey : ptr)
| call_EVP_PKEY_CTX_free (pctx : ptr)
| call_BIO_new_mem (ret : ptr)
| call_BIO_write (bio : ptr) (data : bytes) (ret : Z)
| call_PEM_read_bio_PrivateKey (bio : ptr) (ret : ptr)
| call_PEM_read_bio_PUBKEY (bio : ptr) (ret : ptr)
| call_EVP_MD_CTX_new (ret : ptr)
| call_EVP_MD_CTX_free (ctx : ptr)
| call_EVP_DigestSignInit (ctx : ptr) (md : option EVP_MD) (pkey : ptr) (ret : Z)
| call_EVP_DigestVerifyInit (ctx : ptr) (md : option EVP_MD) (pkey : ptr) (ret : Z)
| call_EVP_PKEY_CTX_set_rsa_padding (pctx : ptr) (pad : Z) (ret : Z)
| call_EVP_DigestSign_size (ctx : ptr) (msg : bytes) (ret : Z) (siglen : nat)
| call_EVP_DigestSign (ctx : ptr) (siglen : nat) (msg : bytes) (ret : Z) (sig : bytes)
| call_EVP_DigestVerify (ctx : ptr) (sig msg : bytes) (ret : Z)
| call_EVP_CIPHER_CTX_new (ret : ptr)
| call_EVP_EncryptInit_ex (ctx : ptr) (cipher : option EVP_CIPHER) (key iv : option bytes) (ret : Z)
| call_EVP_EncryptUpdate (ctx : ptr) (input : bytes) (ret : Z) (out : bytes)
| call_EVP_EncryptFinal_ex (ctx : ptr) (ret : Z) (out : bytes)
| call_EVP_DecryptInit_ex (ctx : ptr) (cipher : option EVP_CIPHER) (key iv : option bytes) (ret : Z)
| call_EVP_DecryptUpdate (ctx : ptr) (input : bytes) (ret : Z) (out : bytes)
| call_EVP_DecryptFinal_ex (ctx : ptr) (ret : Z) (out : bytes)
| call_EVP_CTRL_AEAD_GET_TAG (ctx : ptr) (taglen : nat) (ret : Z) (tag : bytes)
| call_EVP_CTRL_AEAD_SET_TAG (ctx : ptr) (tag : bytes) (ret : Z).

(** ** The monad of the glue code

    A computation runs on the library state and the call log; it returns,
    raises a Lua error, or leaves the defined behaviour of C. *)

Record machine (W : Type) : Type := {
  world : W;
  calls : list native_call
}.

Arguments world {W}.
Arguments calls {W}.

Definition M (W A : Type) : Type := machine W -> outcome A * machine W.

Definition ret {W A} (a : A) : M W A := fun st => (Returns a, st).

Definition raise {W A} (e : lua_error) : M W A := fun st => (Raises e, st).

Definition undefined_behaviour {W A} (u : undefined) : M W A :=
  fun st => (Undefined u, st).

Definition bind {W A B} (m : M W A) (k : A -> M W B) : M W B :=
  fun st =>
    match m st with
    | (Returns a, st') => k a st'
    | (Raises e, st') => (Raises e, st')
    | (Undefined u, st') => (Undefined u, st')
    end.

Declare Scope glue_scope.
Delimit Scope glue_scope with glue.

Notation "x <- m ;; k" := (bind m (fun x => k))
  (at level 100, m at next level, right associativity) : glue_scope.
Notation "'let*' ( x , y ) := m 'in' k" := (bind m (fun '(x, y) => k))
  (at level 100, x name, y name, m at next level, right associativity) : glue_scope.
Notation "m ;;; k" := (bind m (fun _ => k))
  (at level 100, right associativity) : glue_scope.

(** A call into the library: run it on the library state, log it. *)
Definition native {W A} (f : W -> A * W) (ev : A -> native_call) : M W A :=
  fun st =>
    let '(a, w) := f (world st) in
    (Returns a, {| world := w; calls := calls st ++ [ev a] |}).

Definition native_void {W} (f : W -> W) (ev : native_call) : M W unit :=
  fun st => (Returns tt, {| world := f (world st); calls := calls st ++ [ev] |}).

(** A getter: reads the library state, leaves it alone, is not logged. *)
Definition native_get {W A} (f : W -> A) : M W A :=
  fun st => (Returns (f (world st)), st).

Definition defined {W A} (o : option A) (u : undefined) : M W A :=
  match o with
  | Some a => ret a
  | None => undefined_behaviour u
  end.

(** [luaL_addsize(B, n)] followed by [luaL_pushresult(B)]: the first [n]
    cells of the region become a Lua string. *)
Definition luaL_pushresultsize {W} (b : buffer) (n : nat) : M W bytes :=
  if (n <=? length b)%nat
  then defined (initialised (firstn n b)) uninitialised_read
  else undefined_behaviour buffer_overrun.

(** ** Argument checks of the auxiliary library *)

Definition luaL_checklstring {W} (args : list lua_value) (idx : nat) : M W bytes :=
  match lua_arg args idx with
  | Some (LString s) => ret s
  | _ => raise (luaL_typeerror idx "string")
  end.

(** [lua_tolstring]: [NULL] (here [None]) for a value that is not a string. *)
Definition lua_tolstring (args : list lua_value) (idx : nat) : option bytes :=
  match lua_arg args idx with
  | Some (LString s) => Some s
  | _ => None
  end.

Definition luaL_checkudata {W} (args : list lua_value) (idx : nat) (tname : string)
  : M W pkey_ud :=
  match lua_arg args idx with
  | Some (LKey k) => ret k
  | _ => raise (luaL_typeerror idx tname)
  end.

Definition luaL_argcheck {W} (cond : bool) (arg : nat) (extramsg : string) : M W unit :=
  if cond then ret tt else raise (luaL_argerror arg extramsg).

(** ** The glue code *)

Section Glue.

Context {W : Type} (ssl : OpenSSL W).

(** The size of the region [luaL_prepbuffer] hands out (luaconf.h). *)
Variable LUAL_BUFFERSIZE : nat.

Local Open Scope glue_scope.

Definition luaL_prepbuffer : buffer := luaL_prepbuffsize LUAL_BUFFERSIZE.

(** Modelled from the spec: managed_pointer.h, which defines the macro
    MANAGED_POINTER_ALLOCATOR, is not among the sources.  The spec has each
    invocation create its own native context and leave its release to the
    owner of the wrapper; accordingly a managed allocator is the wrapped
    library allocator, and the release is no step of the calling function. *)
Definition new_managed_EVP_MD_CTX : M W ptr :=
  native (EVP_MD_CTX_new ssl) call_EVP_MD_CTX_new.

Definition new_managed_BIO_s_mem : M W ptr :=
  native (BIO_new_mem ssl) call_BIO_new_mem.

Definition new_managed_EVP_CIPHER_CTX : M W ptr :=
  native (EVP_CIPHER_CTX_new ssl) call_EVP_CIPHER_CTX_new.

Definition pkey_from_arg (args : list lua_value) (idx : nat)
    (type : Z) (require_private : Z) : M W ptr :=
  k <- luaL_checkudata args idx PKEY_MT_TAG ;;
  (if negb (type =? 0) || negb (require_private =? 0) then
     let uv := ud_uservalue k in
     (if negb (type =? 0) then
        let got_type := lua_tointeger (lua_getfield uv "type") in
        if negb (got_type =? type)
        then raise (luaL_argerror idx "unexpected key type")
        else ret tt
      else ret tt) ;;;
     (if negb (require_private =? 0) then
        if negb (lua_toboolean (lua_getfield uv "private") =? 1)
        then raise (luaL_argerror idx "private key expected, got public key only")
        else ret tt
      else ret tt)
   else ret tt) ;;;
  ret (ud_pkey k).

Definition base_evp_sign (key_type : Z) (digest_type : option EVP_MD)
    (args : list lua_value) : M W (list lua_value) :=
  pkey <- pkey_from_arg args 1
            (if negb (key_type =? NID_rsassaPss) then key_type else NID_rsaEncryption) 1 ;;
  let msg := lua_tolstring args 2 in
  md_ctx <- new_managed_EVP_MD_CTX ;;
  r <- native (EVP_DigestSignInit ssl md_ctx digest_type pkey)
         (call_EVP_DigestSignInit md_ctx digest_type pkey) ;;
  if negb (r =? 1) then ret [LNil] else
  (if key_type =? NID_rsassaPss then
     pctx <- native_get (EVP_MD_CTX_pkey_ctx ssl md_ctx) ;;
     _ <- native (EVP_PKEY_CTX_set_rsa_padding ssl pctx RSA_PKCS1_PSS_PADDING)
            (call_EVP_PKEY_CTX_set_rsa_padding pctx RSA_PKCS1_PSS_PADDING) ;;
     ret tt
   else ret tt) ;;;
  msg <- defined msg null_string ;;
  let* (r, sig_len) := native (EVP_DigestSign_size ssl md_ctx msg)
         (fun '(r, n) => call_EVP_DigestSign_size md_ctx msg r n) in
  if negb (r =? 1) then ret [LNil] else
  sigbuf <- defined (store luaL_prepbuffer 0 (repeat x00 sig_len)) buffer_overrun ;;
  let* (r, sig) := native (EVP_DigestSign ssl md_ctx sig_len msg)
         (fun '(r, sig) => call_EVP_DigestSign md_ctx sig_len msg r sig) in
  sigbuf <- defined (store sigbuf 0 sig) buffer_overrun ;;
  if negb (r =? 1) then ret [LNil] else
  s <- luaL_pushresultsize sigbuf (length sig) ;;
  ret [LString s].

Definition base_evp_verify (key_type : Z) (digest_type : option EVP_MD)
    (args : list lua_value) : M W (list lua_value) :=
  pkey <- pkey_from_arg args 1
            (if negb (key_type =? NID_rsassaPss) then key_type else NID_rsaEncryption) 0 ;;
  msg <- luaL_checklstring args 2 ;;
  sig <- luaL_checklstring args 3 ;;
  md_ctx <- native (EVP_MD_CTX_new ssl) call_EVP_MD_CTX_new ;;
  r <- native (EVP_DigestVerifyInit ssl md_ctx digest_type pkey)
         (call_EVP_DigestVerifyInit md_ctx digest_type pkey) ;;
  pushed <-
    (if negb (r =? 1) then ret LNil else
     (if key_type =? NID_rsassaPss then
        pctx <- native_get (EVP_MD_CTX_pkey_ctx ssl md_ctx) ;;
        _ <- native (EVP_PKEY_CTX_set_rsa_padding ssl pctx RSA_PKCS1_PSS_PADDING)
               (call_EVP_PKEY_CTX_set_rsa_padding pctx RSA_PKCS1_PSS_PADDING) ;;
        ret tt
      else ret tt) ;;;
     result <- native (EVP_DigestVerify ssl md_ctx sig msg)
                 (call_EVP_DigestVerify md_ctx sig msg) ;;
     if result =? 0 then ret (LBoolean false)
     else if negb (result =? 1) then ret LNil
     else ret (LBoolean true)) ;;
  native_void (EVP_MD_CTX_free ssl md_ctx) (call_EVP_MD_CTX_free md_ctx) ;;;
  ret [pushed].

Definition Lecdsa_sha256_sign := base_evp_sign NID_X9_62_id_ecPublicKey (Some EVP_sha256).
Definition Lecdsa_sha256_verify := base_evp_verify NID_X9_62_id_ecPublicKey (Some EVP_sha256).

Definition push_pkey (pkey : ptr) (type : Z) (privkey : Z) : lua_value :=
  let t0 : gmap string field := ∅ in
  let t1 := if negb (type =? 0) then <["type" := FInteger type]> t0 else t0 in
  let t2 := if negb (privkey =? 0) then <["private" := FBoolean true]> t1 else t1 in
  LKey {| ud_pkey := pkey; ud_uservalue := t2 |}.

Definition Lgenerate_ed25519_keypair (args : list lua_value) : M W (list lua_value) :=
  let pkey := NULL in
  pctx <- native (EVP_PKEY_CTX_new_id ssl EVP_PKEY_ED25519)
            (call_EVP_PKEY_CTX_new_id EVP_PKEY_ED25519) ;;
  _ <- native (EVP_PKEY_keygen_init ssl pctx) (call_EVP_PKEY_keygen_init pctx) ;;
  let* (r, pkey) := native (EVP_PKEY_keygen ssl pctx pkey)
            (fun '(r, p) => call_EVP_PKEY_keygen pctx r p) in
  native_void (EVP_PKEY_CTX_free ssl pctx) (call_EVP_PKEY_CTX_free pctx) ;;;
  ret [push_pkey pkey NID_ED25519 1].

Definition Limport_private_pem (args : list lua_value) : M W (list lua_value) :=
  bio <- new_managed_BIO_s_mem ;;
  privkey_data <- luaL_checklstring args 1 ;;
  _ <- native (BIO_write ssl bio privkey_data) (call_BIO_write bio privkey_data) ;;
  pkey <- native (PEM_read_bio_PrivateKey ssl bio) (call_PEM_read_bio_PrivateKey bio) ;;
  if negb (pkey =? NULL) then
    id <- native_get (EVP_PKEY_id ssl pkey) ;;
    ret [push_pkey pkey id 1]
  else ret [LNil].

Definition Limport_public_pem (args : list lua_value) : M W (list lua_value) :=
  bio <- new_managed_BIO_s_mem ;;
  pubkey_data <- luaL_checklstring args 1 ;;
  _ <- native (BIO_write ssl bio pubkey_data) (call_BIO_write bio pubkey_data) ;;
  pkey <- native (PEM_read_bio_PUBKEY ssl bio) (call_PEM_read_bio_PUBKEY bio) ;;
  if negb (pkey =? NULL) then
    id <- native_get (EVP_PKEY_id ssl pkey) ;;
    ret [push_pkey pkey id 0]
  else ret [LNil].

Definition Led25519_sign := base_evp_sign NID_ED25519 None.
Definition Led25519_verify := base_evp_verify NID_ED25519 None.
Definition Lrsassa_pkcs1_256_sign := base_evp_sign NID_rsaEncryption (Some EVP_sha256).
Definition Lrsassa_pkcs1_256_verify := base_evp_verify NID_rsaEncryption (Some EVP_sha256).
Definition Lrsassa_pss_256_sign := base_evp_sign NID_rsassaPss (Some EVP_sha256).
Definition Lrsassa_pss_256_verify := base_evp_verify NID_rsassaPss (Some EVP_sha256).

(* gcm_encrypt(key, iv, plaintext) *)
Definition Laes_gcm_encrypt (cipher : EVP_CIPHER) (expected_key_len : nat)
    (args : list lua_value) : M W (list lua_value) :=
  key <- luaL_checklstring args 1 ;;
  iv <- luaL_checklstring args 2 ;;
  plaintext <- luaL_checklstring args 3 ;;
  let key_len := length key in
  let iv_len := length iv in
  let plaintext_len := length plaintext in
  if negb (key_len =? expected_key_len)%nat
  then raise (luaL_error "key must be %d bytes" [Z.of_nat expected_key_len]) else
  luaL_argcheck (iv_len =? 12)%nat 2 "iv must be 12 bytes" ;;;
  if (3 <? lua_gettop args)%nat
  then raise (luaL_error "Expected 3 arguments, got %d" [Z.of_nat (lua_gettop args)]) else
  ctx <- new_managed_EVP_CIPHER_CTX ;;
  r <- native (EVP_EncryptInit_ex ssl ctx (Some cipher) None None)
         (call_EVP_EncryptInit_ex ctx (Some cipher) None None) ;;
  if negb (1 =? r) then raise (luaL_error "Error while initializing encryption engine" []) else
  r <- native (EVP_EncryptInit_ex ssl ctx None (Some key) (Some iv))
         (call_EVP_EncryptInit_ex ctx None (Some key) (Some iv)) ;;
  if negb (1 =? r) then raise (luaL_error "Error while initializing key/iv" []) else
  let ciphertext := luaL_prepbuffsize (plaintext_len + 16) in
  let* (r, out) := native (EVP_EncryptUpdate ssl ctx plaintext)
         (fun '(r, out) => call_EVP_EncryptUpdate ctx plaintext r out) in
  ciphertext <- defined (store ciphertext 0 out) buffer_overrun ;;
  let ciphertext_len := length out in
  if negb (1 =? r) then raise (luaL_error "Error while encrypting data" []) else
  let* (r, fin) := native (EVP_EncryptFinal_ex ssl ctx)
         (fun '(r, fin) => call_EVP_EncryptFinal_ex ctx r fin) in
  ciphertext <- defined (store ciphertext ciphertext_len fin) buffer_overrun ;;
  let final_len := length fin in
  if negb (1 =? r) then raise (luaL_error "Error while encrypting final data" []) else
  if negb (final_len =? 0)%nat then raise (luaL_error "Non-zero final data" []) else
  let* (r, tag) := native (EVP_CTRL_AEAD_GET_TAG ssl ctx 16)
         (fun '(r, tag) => call_EVP_CTRL_AEAD_GET_TAG ctx 16 r tag) in
  ciphertext <- defined (store ciphertext ciphertext_len tag) buffer_overrun ;;
  if negb (1 =? r) then raise (luaL_error "Unable to read AEAD tag of encrypted data" []) else
  s <- luaL_pushresultsize ciphertext (ciphertext_len + 16) ;;
  ret [LString s].

Definition Laes_128_gcm_encrypt := Laes_gcm_encrypt EVP_aes_128_gcm 16.
Definition Laes_256_gcm_encrypt := Laes_gcm_encrypt EVP_aes_256_gcm 32.

(* gcm_decrypt(key, iv, ciphertext) *)
Definition Laes_gcm_decrypt (cipher : EVP_CIPHER) (expected_key_len : nat)
    (args : list lua_value) : M W (list lua_value) :=
  key <- luaL_checklstring args 1 ;;
  iv <- luaL_checklstring args 2 ;;
  ciphertext <- luaL_checklstring args 3 ;;
  let key_len := length key in
  let iv_len := length iv in
  let ciphertext_len := length ciphertext in
  if negb (key_len =? expected_key_len)%nat
  then raise (luaL_error "key must be %d bytes" [Z.of_nat expected_key_len]) else
  luaL_argcheck (iv_len =? 12)%nat 2 "iv must be 12 bytes" ;;;
  luaL_argcheck (16 <? ciphertext_len)%nat 3
    "ciphertext must be at least 16 bytes (including tag)" ;;;
  if (3 <? lua_gettop args)%nat
  then raise (luaL_error "Expected 3 arguments, got %d" [Z.of_nat (lua_gettop args)]) else
  ctx <- new_managed_EVP_CIPHER_CTX ;;
  r <- native (EVP_DecryptInit_ex ssl ctx (Some cipher) None None)
         (call_EVP_DecryptInit_ex ctx (Some cipher) None None) ;;
  if r =? 0 then raise (luaL_error "Error while initializing decryption engine" []) else
  r <- native (EVP_DecryptInit_ex ssl ctx None (Some key) (Some iv))
         (call_EVP_DecryptInit_ex ctx None (Some key) (Some iv)) ;;
  if r =? 0 then raise (luaL_error "Error while initializing key/iv" []) else
  let plaintext := luaL_prepbuffsize ciphertext_len in
  let input := firstn (ciphertext_len - 16) ciphertext in
  let* (r, out) := native (EVP_DecryptUpdate ssl ctx input)
         (fun '(r, out) => call_EVP_DecryptUpdate ctx input r out) in
  plaintext <- defined (store plaintext 0 out) buffer_overrun ;;
  let plaintext_len := length out in
  if r =? 0 then raise (luaL_error "Error while decrypting data" []) else
  let tag := firstn 16 (skipn (ciphertext_len - 16) ciphertext) in
  r <- native (EVP_CTRL_AEAD_SET_TAG ssl ctx tag) (call_EVP_CTRL_AEAD_SET_TAG ctx tag) ;;
  if r =? 0 then raise (luaL_error "Error while processing authentication tag" []) else
  let* (r, fin) := native (EVP_DecryptFinal_ex ssl ctx)
         (fun '(r, fin) => call_EVP_DecryptFinal_ex ctx r fin) in
  plaintext <- defined (store plaintext plaintext_len fin) buffer_overrun ;;
  let final_len := length fin in
  if r <=? 0 then
    (* Verify failed *)
    ret [LNil; LString (list_byte_of_string "verify-failed")]
  else
  s <- luaL_pushresultsize plaintext (plaintext_len + final_len) ;;
  ret [LString s].

Definition Laes_128_gcm_decrypt := Laes_gcm_decrypt EVP_aes_128_gcm 16.
Definition Laes_256_gcm_decrypt := Laes_gcm_decrypt EVP_aes_256_gcm 32.

(* r, s = parse_ecdsa_sig(sig_der) *)
Definition Lparse_ecdsa_signature (args : list lua_value) : M W (list lua_value) :=
  sig_der <- luaL_checklstring args 1 ;;
  match d2i_ECDSA_SIG ssl sig_der with
  | None => ret [LNil]
  | Some (r, s) =>
      let rlen := BN_num_bytes r in
      let slen := BN_num_bytes s in
      rb <- defined (store luaL_prepbuffer 0 (BN_bn2bin r)) buffer_overrun ;;
      rstr <- luaL_pushresultsize rb rlen ;;
      sb <- defined (store luaL_prepbuffer 0 (BN_bn2bin s)) buffer_overrun ;;
      sstr <- luaL_pushresultsize sb slen ;;
      ret [LString rstr; LString sstr]
  end.

(* sig_der = build_ecdsa_signature(r, s) *)
Definition Lbuild_ecdsa_signature (args : list lua_value) : M W (list lua_value) :=
  rbin <- luaL_checklstring args 1 ;;
  sbin <- luaL_checklstring args 2 ;;
  let r := BN_bin2bn rbin in
  let s := BN_bin2bn sbin in
  let buffer := luaL_prepbuffer in
  match i2d_ECDSA_SIG ssl r s with
  | None => undefined_behaviour negative_size
  | Some der =>
      sigbuf <- defined (store buffer 0 der) buffer_overrun ;;
      str <- luaL_pushresultsize sigbuf (length der) ;;
      ret [LString str]
  end.

(** The function table of the library. *)
Definition Reg : list (string * (list lua_value -> M W (list lua_value))) :=
  [ ("ed25519_sign",             Led25519_sign);
    ("ed25519_verify",           Led25519_verify);
    ("rsassa_pkcs1_256_sign",    Lrsassa_pkcs1_256_sign);
    ("rsassa_pkcs1_256_verify",  Lrsassa_pkcs1_256_verify);
    ("rsassa_pss_256_sign",      Lrsassa_pss_256_sign);
    ("rsassa_pss_256_verify",    Lrsassa_pss_256_verify);
    ("aes_128_gcm_encrypt",      Laes_128_gcm_encrypt);
    ("aes_128_gcm_decrypt",      Laes_128_gcm_decrypt);
    ("aes_256_gcm_encrypt",      Laes_256_gcm_encrypt);
    ("aes_256_gcm_decrypt",      Laes_256_gcm_decrypt);
    ("ecdsa_sha256_sign",        Lecdsa_sha256_sign);
    ("ecdsa_sha256_verify",      Lecdsa_sha256_verify);
    ("generate_ed25519_keypair", Lgenerate_ed25519_keypair);
    ("import_private_pem",       Limport_private_pem);
    ("import_public_pem",        Limport_public_pem);
    ("parse_ecdsa_signature",    Lparse_ecdsa_signature);
    ("build_ecdsa_signature",    Lbuild_ecdsa_signature) ]%string.

Fixpoint Reg_find (name : string)
    (reg : list (string * (list lua_value -> M W (list lua_value))))
  : option (list lua_value -> M W (list lua_value)) :=
  match reg with
  | [] => None
  | (n, f) :: rest => if String.eqb n name then Some f else Reg_find name rest
  end.

(** Calling a library function by its registered name. *)
Definition call (name : string) (args : list lua_value) : M W (list lua_value) :=
  match Reg_find name Reg with
  | Some f => f args
  | None => raise (luaL_error "attempt to call a nil value" [])
  end.

End Glue.

(** ** The operations named by the specification

    The four signing and four verification entry points with the key
    algorithm each one expects, and the four AEAD entry points with the key
    length of their variant. *)

Definition sign_operations : list (string * Z) :=
  [ ("ed25519_sign", NID_ED25519);
    ("rsassa_pkcs1_256_sign", NID_rsaEncryption);
    ("rsassa_pss_256_sign", NID_rsaEncryption);
    ("ecdsa_sha256_sign", NID_X9_62_id_ecPublicKey) ]%string.

Definition verify_operations : list (string * Z) :=
  [ ("ed25519_verify", NID_ED25519);
    ("rsassa_pkcs1_256_verify", NID_rsaEncryption);
    ("rsassa_pss_256_verify", NID_rsaEncryption);
    ("ecdsa_sha256_verify", NID_X9_62_id_ecPublicKey) ]%string.

Definition aead_operations : list (string * nat) :=
  [ ("aes_128_gcm_encrypt", 16%nat);
    ("aes_128_gcm_decrypt", 16%nat);
    ("aes_256_gcm_encrypt", 32%nat);
    ("aes_256_gcm_decrypt", 32%nat) ]%string.

(** The failures of the specification's taxonomy, as the code raises them. *)
Definition TypeMismatch (arg : nat) : lua_error :=
  luaL_argerror arg "unexpected key type".

Definition CapabilityMismatch (arg : nat) : lua_error :=
  luaL_argerror arg "private key expected, got public key only".


(** The attributes of a key handle, read the way [pkey_from_arg] reads them. *)
Definition algorithm (k : pkey_ud) : Z :=
  lua_tointeger (lua_getfield (ud_uservalue k) "type").

Definition has_private_material (k : pkey_ud) : bool :=
  lua_toboolean (lua_getfield (ud_uservalue k) "private") =? 1.

(** The calls logged between two machine states. *)
Definition since {W} (st st' : machine W) : list native_call :=
  skipn (length (calls st)) (calls st').

Definition selects_rsa_padding (e : native_call) : bool :=
  match e with
  | call_EVP_PKEY_CTX_set_rsa_padding _ _ _ => true
  | _ => false
  end.

(** The key algorithm [base_evp_sign] and [base_evp_verify] ask
    [pkey_from_arg] for: their first argument, except that RSASSA-PSS is
    served by plain RSA keys. *)
Definition expected_type (key_type : Z) : Z :=
  if negb (key_type =? NID_rsassaPss) then key_type else NID_rsaEncryption.

(** The value [base_evp_verify] pushes for a result of [EVP_DigestVerify]. *)
Definition verdict (result : Z) : lua_value :=
  if result =? 0 then LBoolean false
  else if negb (result =? 1) then LNil
  else LBoolean true.

(** The padding call made for a key type, if any. *)
Definition padding_calls (key_type : Z) (pctx : ptr) (rp : Z) : list native_call :=
  if key_type =? NID_rsassaPss
  then [call_EVP_PKEY_CTX_set_rsa_padding pctx RSA_PKCS1_PSS_PADDING rp]
  else [].

(** What this glue code relies on in GCM mode: the cipher is a stream cipher
    (as many bytes out as in, nothing held back for the final call) and the
    tag has the requested length. *)
Record gcm_laws {W} (ssl : OpenSSL W) : Prop := {
  gcm_encrypt_update_length :
    forall ctx input w r out w',
      EVP_EncryptUpdate ssl ctx input w = ((r, out), w') ->
      r = 1 -> length out = length input;
  gcm_get_tag_length :
    forall ctx n w r tag w',
      EVP_CTRL_AEAD_GET_TAG ssl ctx n w = ((r, tag), w') ->
      r = 1 -> length tag = n;
  gcm_decrypt_update_length :
    forall ctx input w r out w',
      EVP_DecryptUpdate ssl ctx input w = ((r, out), w') ->
      r <> 0 -> length out = length input;
  gcm_decrypt_final_empty :
    forall ctx w r out w',
      EVP_DecryptFinal_ex ssl ctx w = ((r, out), w') -> out = []
}.

(** ** A reference library

    A small executable implementation of the interface, used to run the
    glue code on concrete inputs.  Its ciphers and signatures are keyed
    checksums, not cryptography; its [ECDSA_SIG] coder is the DER encoding
    of a SEQUENCE of two non-negative INTEGERs with lengths up to 65535. *)

Module Ref.

Fixpoint bytes_eqb (a b : bytes) : bool :=
  match a, b with
  | [], [] => true
  | x :: a', y :: b' => Byte.eqb x y && bytes_eqb a' b'
  | _, _ => false
  end.

Definition checksum (data : bytes) : Z :=
  fold_left (fun acc b => (acc * 31 + Z_of_byte b + 7) mod 2 ^ 128) data 0.

Definition mask (key : bytes) (data : bytes) : bytes :=
  map (fun b => byte_of_Z (Z.lxor (Z_of_byte b) (Z_of_byte (hd x00 key)))) data.

Definition tag_of (key iv data : bytes) (n : nat) : bytes :=
  be_encode n (checksum (key ++ iv ++ data)).

Inductive object : Type :=
| OKey (id : Z) (private : bool) (seed : Z)
| OPkeyCtx (id : Z)
| OBio (data : bytes)
| OMdCtx (verifying : bool) (pkey : ptr) (pad : Z)
| OCipher (cipher : option EVP_CIPHER) (key iv : bytes) (seen : bytes)
    (expected : option bytes).

Record library : Type := {
  next : ptr;
  fips : bool;
  heap : list (ptr * object)
}.

Definition start (fips_mode : bool) : library :=
  {| next := 1; fips := fips_mode; heap := [] |}.

Fixpoint find (p : ptr) (h : list (ptr * object)) : option object :=
  match h with
  | [] => None
  | (q, o) :: rest => if q =? p then Some o else find p rest
  end.

Definition alloc (o : object) (w : library) : ptr * library :=
  (next w, {| next := next w + 1; fips := fips w; heap := (next w, o) :: heap w |}).

Definition put (p : ptr) (o : object) (w : library) : library :=
  {| next := next w; fips := fips w; heap := (p, o) :: heap w |}.

Definition key_len_ok (c : option EVP_CIPHER) (key : bytes) : bool :=
  match c with
  | Some EVP_aes_128_gcm => (length key =? 16)%nat
  | Some EVP_aes_256_gcm => (length key =? 32)%nat
  | None => false
  end.

Definition sig_size (id : Z) : nat :=
  if id =? NID_ED25519 then 64%nat
  else if id =? NID_rsaEncryption then 256%nat
  else 72%nat.

Definition signature (id seed pad : Z) (msg : bytes) : bytes :=
  be_encode (sig_size id)
    (checksum (be_encode 4 seed ++ be_encode 1 pad ++ msg)).

Definition digest_init (verifying : bool) (ctx : ptr) (md : option EVP_MD)
    (pkey : ptr) (w : library) : Z * library :=
  match find ctx (heap w), find pkey (heap w) with
  | Some (OMdCtx _ _ _), Some (OKey id private _) =>
      let md_ok := match md with
                   | None => id =? NID_ED25519
                   | Some _ => negb (id =? NID_ED25519)
                   end in
      if md_ok && (verifying || private)
      then (1, put ctx (OMdCtx verifying pkey 1) w)
      else (0, w)
  | _, _ => (0, w)
  end.

Definition ctx_key (ctx : ptr) (w : library) : option (Z * Z * Z) :=
  match find ctx (heap w) with
  | Some (OMdCtx _ pkey pad) =>
      match find pkey (heap w) with
      | Some (OKey id _ seed) => Some (id, seed, pad)
      | _ => None
      end
  | _ => None
  end.

(** DER.  A length below 128 takes one byte; longer ones take the count of
    length bytes (0x81, 0x82) and then the length. *)
Definition der_length (n : nat) : option bytes :=
  let z := Z.of_nat n in
  if z <? 128 then Some [byte_of_Z z]
  else if z <? 256 then Some [x81; byte_of_Z z]
  else if z <? 65536 then Some [x82; byte_of_Z (z / 256); byte_of_Z z]
  else None.

Definition der_integer (a : BIGNUM) : option bytes :=
  if a <? 0 then None else
  let mag := BN_bn2bin a in
  let content :=
    match mag with
    | [] => [x00]
    | b :: _ => if 128 <=? Z_of_byte b then x00 :: mag else mag
    end in
  match der_length (length content) with
  | Some len => Some (x02 :: len ++ content)
  | None => None
  end.

Definition i2d (r s : BIGNUM) : option bytes :=
  match der_integer r, der_integer s with
  | Some ri, Some si =>
      match der_length (length (ri ++ si)) with
      | Some len => Some (x30 :: len ++ ri ++ si)
      | None => None
      end
  | _, _ => None
  end.

Definition take_length (s : bytes) : option (nat * bytes) :=
  match s with
  | [] => None
  | b :: rest =>
      if Z_of_byte b <? 128 then Some (Z.to_nat (Z_of_byte b), rest)
      else if Z_of_byte b =? 129 then
        match rest with
        | l :: rest' =>
            if 128 <=? Z_of_byte l then Some (Z.to_nat (Z_of_byte l), rest')
            else None
        | _ => None
        end
      else if Z_of_byte b =? 130 then
        match rest with
        | h :: l :: rest' =>
            if 1 <=? Z_of_byte h
            then Some (Z.to_nat (Z_of_byte h * 256 + Z_of_byte l), rest')
            else None
        | _ => None
        end
      else None
  end.

Definition take_integer (s : bytes) : option (BIGNUM * bytes) :=
  match s with
  | t :: rest =>
      if Z_of_byte t =? 2 then
        match take_length rest with
        | Some (n, body) =>
            if (n <=? length body)%nat then
              match firstn n body with
              | [] => None
              | b :: more =>
                  if 128 <=? Z_of_byte b then None
                  else if (Z_of_byte b =? 0)
                          && match more with
                             | [] => false
                             | c :: _ => Z_of_byte c <? 128
                             end
                       then None
                       else Some (be_decode (b :: more), skipn n body)
              end
            else None
        | None => None
        end
      else None
  | [] => None
  end.

Definition d2i (der : bytes) : option (BIGNUM * BIGNUM) :=
  match der with
  | t :: rest =>
      if Z_of_byte t =? 48 then
        match take_length rest with
        | Some (n, body) =>
            if (n =? length body)%nat then
              match take_integer body with
              | Some (r, body') =>
                  match take_integer body' with
                  | Some (s, []) => Some (r, s)
                  | _ => None
                  end
              | None => None
              end
            else None
        | None => None
        end
      else None
  | [] => None
  end.

Definition ssl : OpenSSL library := {|
  EVP_PKEY_CTX_new_id := fun id w => alloc (OPkeyCtx id) w;
  EVP_PKEY_keygen_init := fun pctx w =>
    match find pctx (heap w) with
    | Some (OPkeyCtx id) => if fips w && (id =? EVP_PKEY_ED25519) then (0, w) else (1, w)
    | _ => (-2, w)
    end;
  EVP_PKEY_keygen := fun pctx pkey w =>
    match find pctx (heap w) with
    | Some (OPkeyCtx id) =>
        if fips w && (id =? EVP_PKEY_ED25519) then ((0, pkey), w)
        else let '(p, w') := alloc (OKey id true (next w)) w in ((1, p), w')
    | _ => ((-2, pkey), w)
    end;
  EVP_PKEY_CTX_free := fun _ w => w;
  EVP_PKEY_id := fun pkey w =>
    match find pkey (heap w) with
    | Some (OKey id _ _) => id
    | _ => 0
    end;
  BIO_new_mem := fun w => alloc (OBio []) w;
  BIO_write := fun bio data w =>
    match find bio (heap w) with
    | Some (OBio old) => (Z.of_nat (length data), put bio (OBio (old ++ data)) w)
    | _ => (-1, w)
    end;
  PEM_read_bio_PrivateKey := fun bio w =>
    match find bio (heap w) with
    | Some (OBio (x01 :: hi :: lo :: seed)) =>
        alloc (OKey (be_decode [hi; lo]) true (checksum seed)) w
    | _ => (NULL, w)
    end;
  PEM_read_bio_PUBKEY := fun bio w =>
    match find bio (heap w) with
    | Some (OBio (x00 :: hi :: lo :: seed)) =>
        alloc (OKey (be_decode [hi; lo]) false (checksum seed)) w
    | _ => (NULL, w)
    end;
  EVP_MD_CTX_new := fun w => alloc (OMdCtx false NULL 1) w;
  EVP_MD_CTX_free := fun _ w => w;
  EVP_MD_CTX_pkey_ctx := fun ctx _ => ctx;
  EVP_DigestSignInit := digest_init false;
  EVP_DigestVerifyInit := digest_init true;
  EVP_PKEY_CTX_set_rsa_padding := fun pctx pad w =>
    match find pctx (heap w) with
    | Some (OMdCtx v pkey _) =>
        match find pkey (heap w) with
        | Some (OKey id _ _) =>
            if id =? NID_rsaEncryption then (1, put pctx (OMdCtx v pkey pad) w)
            else (-2, w)
        | _ => (-2, w)
        end
    | _ => (-2, w)
    end;
  EVP_DigestSign_size := fun ctx msg w =>
    match ctx_key ctx w with
    | Some (id, _, _) => ((1, sig_size id), w)
    | None => ((0, 0%nat), w)
    end;
  EVP_DigestSign := fun ctx siglen msg w =>
    match ctx_key ctx w with
    | Some (id, seed, pad) =>
        if (sig_size id <=? siglen)%nat
        then ((1, signature id seed pad msg), w)
        else ((0, []), w)
    | None => ((0, []), w)
    end;
  EVP_DigestVerify := fun ctx sig msg w =>
    match ctx_key ctx w with
    | Some (id, seed, pad) =>
        if negb (length sig =? sig_size id)%nat then (-1, w)
        else if bytes_eqb sig (signature id seed pad msg) then (1, w)
        else (0, w)
    | None => (-1, w)
    end;
  EVP_CIPHER_CTX_new := fun w => alloc (OCipher None [] [] [] None) w;
  EVP_EncryptInit_ex := fun ctx c key iv w =>
    match find ctx (heap w) with
    | Some (OCipher c0 k0 iv0 seen e) =>
        let c1 := match c with Some _ => c | None => c0 end in
        match key, iv with
        | Some k, Some v =>
            if key_len_ok c1 k then (1, put ctx (OCipher c1 k v [] None) w) else (0, w)
        | _, _ => (1, put ctx (OCipher c1 k0 iv0 seen e) w)
        end
    | _ => (0, w)
    end;
  EVP_EncryptUpdate := fun ctx input w =>
    match find ctx (heap w) with
    | Some (OCipher c k v seen e) =>
        let out := mask k input in
        ((1, out), put ctx (OCipher c k v (seen ++ out) e) w)
    | _ => ((0, []), w)
    end;
  EVP_EncryptFinal_ex := fun ctx w =>
    match find ctx (heap w) with
    | Some (OCipher _ _ _ _ _) => ((1, []), w)
    | _ => ((0, []), w)
    end;
  EVP_DecryptInit_ex := fun ctx c key iv w =>
    match find ctx (heap w) with
    | Some (OCipher c0 k0 iv0 seen e) =>
        let c1 := match c with Some _ => c | None => c0 end in
        match key, iv with
        | Some k, Some v =>
            if key_len_ok c1 k then (1, put ctx (OCipher c1 k v [] None) w) else (0, w)
        | _, _ => (1, put ctx (OCipher c1 k0 iv0 seen e) w)
        end
    | _ => (0, w)
    end;
  EVP_DecryptUpdate := fun ctx input w =>
    match find ctx (heap w) with
    | Some (OCipher c k v seen e) =>
        ((1, mask k input), put ctx (OCipher c k v (seen ++ input) e) w)
    | _ => ((0, []), w)
    end;
  EVP_DecryptFinal_ex := fun ctx w =>
    match find ctx (heap w) with
    | Some (OCipher _ k v seen (Some tag)) =>
        if bytes_eqb tag (tag_of k v seen 16) then ((1, []), w) else ((0, []), w)
    | _ => ((0, []), w)
    end;
  EVP_CTRL_AEAD_GET_TAG := fun ctx n w =>
    match find ctx (heap w) with
    | Some (OCipher _ k v seen _) => ((1, tag_of k v seen n), w)
    | _ => ((0, []), w)
    end;
  EVP_CTRL_AEAD_SET_TAG := fun ctx tag w =>
    match find ctx (heap w) with
    | Some (OCipher c k v seen _) => (1, put ctx (OCipher c k v seen (Some tag)) w)
    | _ => (0, w)
    end;
  d2i_ECDSA_SIG := d2i;
  i2d_ECDSA_SIG := i2d
|}.

(** The machine at start-up: an empty library, an empty call log. *)
Definition boot (fips_mode : bool) : machine library :=
  {| world := start fips_mode; calls := [] |}.

End Ref.

(** Concrete inputs for running the glue code on the reference library. *)
Module Sample.

(** The buffer size of a stock 64-bit Lua 5.4 build. *)
Definition LUAL_BUFFERSIZE : nat := 1024.

Definition key16 : bytes := repeat x2a 16.
Definition key32 : bytes := repeat x2a 32.
Definition iv12 : bytes := repeat x07 12.
Definition hello : bytes := list_byte_of_string "hello".

(** Key material in the reference library's PEM stand-in: a public RSA key. *)
Definition rsa_public_pem : bytes := [x00; x00; x06; x2a].

Definition rsa_public : pkey_ud :=
  {| ud_pkey := 2;
     ud_uservalue := <["type" := FInteger NID_rsaEncryption]> ∅ |}.

Definition rsa_private : pkey_ud :=
  {| ud_pkey := 2;
     ud_uservalue :=
       <["private" := FBoolean true]> (<["type" := FInteger NID_rsaEncryption]> ∅) |}.

Definition ed25519_private : pkey_ud :=
  {| ud_pkey := 2;
     ud_uservalue :=
       <["private" := FBoolean true]> (<["type" := FInteger NID_ED25519]> ∅) |}.

(** SEQUENCE { INTEGER 2^8192, INTEGER 1 }: well-formed DER whose first
    component has a magnitude of 1025 bytes. *)
Definition oversized_der : bytes :=
  [x30; x82; x04; x08; x02; x82; x04; x01; x01] ++ repeat x00 1024 ++ [x02; x01; x01].





(** The machine after one Ed25519 key pair was generated. *)
Definition after_keygen : machine Ref.library :=
  snd (Lgenerate_ed25519_keypair Ref.ssl [] (Ref.boot false)).

(** Encrypt, then decrypt what came out. *)
Definition run_roundtrip (pt : bytes) : outcome (list lua_value) :=
  match call Ref.ssl LUAL_BUFFERSIZE "aes_256_gcm_encrypt"
          [LString key32; LString iv12; LString pt] (Ref.boot false) with
  | (Returns [LString ct], st) =>
      fst (call Ref.ssl LUAL_BUFFERSIZE "aes_256_gcm_decrypt"
             [LString key32; LString iv12; LString ct] st)
  | (o, _) => o
  end.

(** Generate a key, sign [hello], verify a possibly damaged signature. *)
Definition run_signature (damage : bytes -> bytes) : outcome (list lua_value) :=
  match call Ref.ssl LUAL_BUFFERSIZE "generate_ed25519_keypair" [] (Ref.boot false) with
  | (Returns [key], st) =>
      match call Ref.ssl LUAL_BUFFERSIZE "ed25519_sign" [key; LString hello] st with
      | (Returns [LString sig], st') =>
          fst (call Ref.ssl LUAL_BUFFERSIZE "ed25519_verify"
                 [key; LString hello; LString (damage sig)] st')
      | (o, _) => o
      end
  | (o, _) => o
  end.

End Sample.

(** ** Key objects: export, type query and release

    The functions behind the methods of a key object and behind its
    finalizer.  They use five library functions beyond those of [OpenSSL].
    [PEM_write_bio_PUBKEY] and [PEM_write_bio_PrivateKey] return their
    status; [BIO_get_mem_data] yields the content of a memory BIO, and the
    count the C macro returns is the length of that content; [OBJ_nid2sn]
    yields [None] where the C function returns [NULL].  The call log keeps
    the vocabulary of the signing, cipher and import functions: the calls
    below act on the library state and add no entry to it (the allocation
    of the BIO is logged as everywhere else). *)

Record OpenSSL_keys (W : Type) : Type := {
  EVP_PKEY_free : ptr -> W -> W;
  OBJ_nid2sn : Z -> W -> option bytes;
  PEM_write_bio_PUBKEY : ptr -> ptr -> W -> Z * W;
  PEM_write_bio_PrivateKey : ptr -> ptr -> W -> Z * W;
  BIO_get_mem_data : ptr -> W -> bytes
}.

Arguments EVP_PKEY_free {W}.
Arguments OBJ_nid2sn {W}.
Arguments PEM_write_bio_PUBKEY {W}.
Arguments PEM_write_bio_PrivateKey {W}.
Arguments BIO_get_mem_data {W}.

(** A call into the library that has no entry in the call log. *)
Definition library {W A} (f : W -> A * W) : M W A :=
  fun st =>
    let '(a, w) := f (world st) in
    (Returns a, {| world := w; calls := calls st |}).

Definition library_void {W} (f : W -> W) : M W unit :=
  fun st => (Returns tt, {| world := f (world st); calls := calls st |}).

(** [lua_pushstring]: a [NULL] pointer pushes [nil]. *)
Definition lua_pushstring (s : option bytes) : lua_value :=
  match s with
  | Some s => LString s
  | None => LNil
  end.

Section KeyObject.

Context {W : Type} (ssl : OpenSSL W) (keys : OpenSSL_keys W).

Local Open Scope glue_scope.

Definition Lpkey_finalizer (args : list lua_value) : M W (list lua_value) :=
  pkey <- pkey_from_arg args 1 0 0 ;;
  library_void (EVP_PKEY_free keys pkey) ;;;
  ret [].

Definition Lpkey_meth_get_type (args : list lua_value) : M W (list lua_value) :=
  pkey <- pkey_from_arg args 1 0 0 ;;
  key_type <- native_get (EVP_PKEY_id ssl pkey) ;;
  sn <- native_get (OBJ_nid2sn keys key_type) ;;
  ret [lua_pushstring sn].

Definition Lpkey_meth_public_pem (args : list lua_value) : M W (list lua_value) :=
  pkey <- pkey_from_arg args 1 0 0 ;;
  bio <- new_managed_BIO_s_mem ssl ;;
  r <- library (PEM_write_bio_PUBKEY keys bio pkey) ;;
  if negb (r =? 0) then
    data <- native_get (BIO_get_mem_data keys bio) ;;
    let n_bytes := length data in
    if (0 <? n_bytes)%nat then ret [LString data] else ret [LNil]
  else ret [LNil].

Definition Lpkey_meth_private_pem (args : list lua_value) : M W (list lua_value) :=
  pkey <- pkey_from_arg args 1 0 1 ;;
  bio <- new_managed_BIO_s_mem ssl ;;
  r <- library (PEM_write_bio_PrivateKey keys bio pkey) ;;
  if negb (r =? 0) then
    data <- native_get (BIO_get_mem_data keys bio) ;;
    let n_bytes := length data in
    if (0 <? n_bytes)%nat then ret [LString data] else ret [LNil]
  else ret [LNil].

(** The method table, installed as [__index] of the key metatable, and the
    metatable's own entry. *)
Definition KeyMethods : list (string * (list lua_value -> M W (list lua_value))) :=
  [ ("private_pem", Lpkey_meth_private_pem);
    ("public_pem",  Lpkey_meth_public_pem);
    ("get_type",    Lpkey_meth_get_type) ]%string.

Definition KeyMetatable : list (string * (list lua_value -> M W (list lua_value))) :=
  [ ("__gc", Lpkey_finalizer) ]%string.

(** [key:name(...)]: the function found under [name] in [KeyMethods], called
    with the key object in front of the arguments. *)
Definition method (name : string) (self : pkey_ud) (args : list lua_value)
  : M W (list lua_value) :=
  match Reg_find name KeyMethods with
  | Some f => f (LKey self :: args)
  | None => raise (luaL_error "attempt to call a nil value" [])
  end.

End KeyObject.

(** ** Notions used to state further properties *)

(** The eight operations that take a key object as their first argument. *)
Definition key_operations : list (string * Z) :=
  sign_operations ++ verify_operations.


(** Creation or release of a digest context. *)
Definition is_md_ctx_lifetime (e : native_call) : bool :=
  match e with
  | call_EVP_MD_CTX_new _ | call_EVP_MD_CTX_free _ => true
  | _ => false
  end.

(** A byte string without its leading zero bytes. *)
Fixpoint strip_leading_zeros (s : bytes) : bytes :=
  match s with
  | b :: rest => if Byte.eqb b x00 then strip_leading_zeros rest else s
  | [] => []
  end.

(** The reference library's side of the key methods: an exported key is the
    marker byte of the import format, the key id on two bytes and the seed
    on sixteen. *)
Module RefKeys.

Definition short_name (nid : Z) : option bytes :=
  if nid =? NID_rsaEncryption then Some (list_byte_of_string "rsaEncryption")
  else if nid =? NID_X9_62_id_ecPublicKey then Some (list_byte_of_string "id-ecPublicKey")
  else if nid =? NID_rsassaPss then Some (list_byte_of_string "RSASSA-PSS")
  else if nid =? NID_ED25519 then Some (list_byte_of_string "ED25519")
  else None.

Definition pem_write (private : bool) (bio pkey : ptr) (w : Ref.library)
  : Z * Ref.library :=
  match Ref.find bio (Ref.heap w), Ref.find pkey (Ref.heap w) with
  | Some (Ref.OBio old), Some (Ref.OKey id has_private seed) =>
      if private && negb has_private then (0, w)
      else
        let marker := if private then x01 else x00 in
        (1, Ref.put bio
              (Ref.OBio (old ++ marker :: be_encode 2 id ++ be_encode 16 seed)) w)
  | _, _ => (0, w)
  end.

Definition keys : OpenSSL_keys Ref.library := {|
  EVP_PKEY_free := fun pkey w =>
    {| Ref.next := Ref.next w; Ref.fips := Ref.fips w;
       Ref.heap := filter (fun entry => negb (fst entry =? pkey)) (Ref.heap w) |};
  OBJ_nid2sn := fun nid _ => short_name nid;
  PEM_write_bio_PUBKEY := pem_write false;
  PEM_write_bio_PrivateKey := pem_write true;
  BIO_get_mem_data := fun bio w =>
    match Ref.find bio (Ref.heap w) with
    | Some (Ref.OBio data) => data
    | _ => []
    end
|}.

End RefKeys.

(** More concrete inputs. *)
Module Cases.

(** The smallest buffer size the source compiles with. *)
Definition LUAL_BUFFERSIZE : nat := 128.

Definition rsa_private_pem : bytes := [x01; x00; x06; x2a].

(** A key of type RSASSA-PSS (id 912). *)
Definition rsa_pss_private_pem : bytes := [x01; x03; x90; x2a].

Definition import_private (pem : bytes)
  : outcome (list lua_value) * machine Ref.library :=
  Limport_private_pem Ref.ssl [LString pem] (Ref.boot false).

Definition import_public (pem : bytes)
  : outcome (list lua_value) * machine Ref.library :=
  Limport_public_pem Ref.ssl [LString pem] (Ref.boot false).

(** The handle an import returned ([rsa_public] where it returned none). *)
Definition handle (run : outcome (list lua_value) * machine Ref.library) : pkey_ud :=
  match fst run with
  | Returns [LKey k] => k
  | _ => Sample.rsa_public
  end.



(** SEQUENCE { INTEGER 255, INTEGER 1 }. *)
Definition der_255_1 : bytes := [x30; x07; x02; x02; x00; xff; x02; x01; x01].

End Cases.

(** * Properties *)

(** ** Bytes and bignums *)


Lemma Z_of_byte_of_Z (z : Z) : Z_of_byte (byte_of_Z z) = z mod 256.
Proof.
  unfold Z_of_byte, byte_of_Z.
  assert (Hr : 0 <= z mod 256 < 256) by (apply Z.mod_pos_bound; lia).
  destruct (Byte.of_N (Z.to_N (z mod 256))) as [b|] eqn:E.
  - apply Byte.to_of_N in E. rewrite E. lia.
  - apply Byte.of_N_None_iff in E. lia.
Qed.

Lemma byte_of_Z_of_byte (b : byte) : byte_of_Z (Z_of_byte b) = b.
Proof.
  unfold byte_of_Z, Z_of_byte.
  pose proof (Byte.to_N_bounded b) as H.
  rewrite Z.mod_small by lia.
  rewrite N2Z.id, Byte.of_to_N. reflexivity.
Qed.

Lemma byte_of_Z_small (z : Z) : 0 <= z < 256 -> Z_of_byte (byte_of_Z z) = z.
Proof. intros H. rewrite Z_of_byte_of_Z. apply Z.mod_small. exact H. Qed.

Lemma be_encode_length (len : nat) (m : Z) : length (be_encode len m) = len.
Proof. induction len as [|k IH]; simpl; congruence. Qed.

Lemma be_decode_acc (s : bytes) (a : Z) :
  fold_left (fun acc b => acc * 256 + Z_of_byte b) s a
  = a * 256 ^ Z.of_nat (length s) + be_decode s.
Proof.
  unfold be_decode. revert a.
  induction s as [|b s IH]; intros a.
  - simpl. lia.
  - cbn [fold_left length]. rewrite IH. rewrite (IH (0 * 256 + Z_of_byte b)).
    rewrite Nat2Z.inj_succ, Z.pow_succ_r by lia. ring.
Qed.

Lemma be_decode_cons (b : byte) (s : bytes) :
  be_decode (b :: s) = Z_of_byte b * 256 ^ Z.of_nat (length s) + be_decode s.
Proof.
  unfold be_decode at 1. cbn [fold_left]. rewrite be_decode_acc. ring.
Qed.

Lemma be_decode_encode (len : nat) (m : Z) :
  be_decode (be_encode len m) = m mod 256 ^ Z.of_nat len.
Proof.
  induction len as [|k IH].
  - simpl. rewrite Z.mod_1_r. reflexivity.
  - cbn [be_encode]. rewrite be_decode_cons, be_encode_length, IH, Z_of_byte_of_Z.
    rewrite Nat2Z.inj_succ, Z.pow_succ_r by lia.
    assert (Hp : 0 < 256 ^ Z.of_nat k) by (apply Z.pow_pos_nonneg; lia).
    rewrite (Z.mul_comm 256). rewrite Z.rem_mul_r by lia. ring.
Qed.


Lemma pow256 (n : nat) : 256 ^ Z.of_nat n = 2 ^ (8 * Z.of_nat n).
Proof. rewrite Z.pow_mul_r by lia. reflexivity. Qed.

Lemma BN_num_bytes_zero : BN_num_bytes 0 = 0%nat.
Proof. reflexivity. Qed.

Lemma BN_bn2bin_zero : BN_bn2bin 0 = [].
Proof. reflexivity. Qed.

Lemma BN_bin2bn_empty : BN_bin2bn [] = 0.
Proof. reflexivity. Qed.

Lemma BN_bn2bin_length (a : BIGNUM) : length (BN_bn2bin a) = BN_num_bytes a.
Proof. apply be_encode_length. Qed.

Lemma BN_num_bits_spec (a : BIGNUM) :
  a <> 0 -> 2 ^ (BN_num_bits a - 1) <= Z.abs a < 2 ^ BN_num_bits a.
Proof.
  intros Ha. unfold BN_num_bits.
  destruct (Z.abs a =? 0) eqn:E; [lia|].
  assert (Hpos : 0 < Z.abs a) by lia.
  pose proof (Z.log2_spec (Z.abs a) Hpos) as [Hlo Hhi].
  replace (Z.log2 (Z.abs a) + 1 - 1) with (Z.log2 (Z.abs a)) by lia.
  replace (Z.log2 (Z.abs a) + 1) with (Z.succ (Z.log2 (Z.abs a))) by lia.
  lia.
Qed.

Lemma BN_num_bytes_bits (a : BIGNUM) :
  a <> 0 ->
  8 * (Z.of_nat (BN_num_bytes a) - 1) <= BN_num_bits a - 1
  /\ BN_num_bits a <= 8 * Z.of_nat (BN_num_bytes a)
  /\ 0 < Z.of_nat (BN_num_bytes a).
Proof.
  intros Ha. unfold BN_num_bytes.
  assert (Hb : 1 <= BN_num_bits a).
  { unfold BN_num_bits. destruct (Z.abs a =? 0) eqn:E; [lia|].
    pose proof (Z.log2_nonneg (Z.abs a)). lia. }
  rewrite Z2Nat.id by (apply Z.div_pos; lia).
  pose proof (Z.div_mod (BN_num_bits a + 7) 8 ltac:(lia)) as Hd.
  pose proof (Z.mod_pos_bound (BN_num_bits a + 7) 8 ltac:(lia)) as Hm.
  lia.
Qed.

Lemma BN_magnitude_bound (a : BIGNUM) : Z.abs a < 256 ^ Z.of_nat (BN_num_bytes a).
Proof.
  destruct (Z.eq_dec a 0) as [->|Ha].
  - simpl. lia.
  - pose proof (BN_num_bits_spec a Ha) as [_ Hhi].
    pose proof (BN_num_bytes_bits a Ha) as (_ & Hle & _).
    rewrite pow256.
    eapply Z.lt_le_trans; [exact Hhi|].
    apply Z.pow_le_mono_r; lia.
Qed.

(** Reading back what [BN_bn2bin] wrote gives the magnitude. *)
Lemma BN_bin2bn_bn2bin (a : BIGNUM) : BN_bin2bn (BN_bn2bin a) = Z.abs a.
Proof.
  unfold BN_bin2bn, BN_bn2bin. rewrite be_decode_encode.
  apply Z.mod_small. pose proof (BN_magnitude_bound a). lia.
Qed.

(** [BN_bn2bin] writes no leading zero byte. *)
Lemma BN_bn2bin_minimal (a : BIGNUM) : hd_error (BN_bn2bin a) <> Some x00.
Proof.
  unfold BN_bn2bin.
  destruct (Z.eq_dec a 0) as [->|Ha]; [discriminate|].
  pose proof (BN_num_bits_spec a Ha) as [Hlo _].
  pose proof (BN_num_bytes_bits a Ha) as (Hk & _ & Hn).
  pose proof (BN_magnitude_bound a) as Hhi.
  destruct (BN_num_bytes a) as [|k] eqn:E; [lia|].
  cbn [be_encode hd_error]. intros Heq. injection Heq as Heq.
  apply (f_equal Z_of_byte) in Heq. rewrite Z_of_byte_of_Z in Heq.
  change (Z_of_byte x00) with 0 in Heq.
  assert (Hp : 0 < 256 ^ Z.of_nat k) by (apply Z.pow_pos_nonneg; lia).
  assert (Hge : 256 ^ Z.of_nat k <= Z.abs a).
  { rewrite pow256. eapply Z.le_trans; [|exact Hlo].
    apply Z.pow_le_mono_r; lia. }
  assert (Hq1 : 1 <= Z.abs a / 256 ^ Z.of_nat k).
  { apply Z.div_le_lower_bound; lia. }
  assert (Hq2 : Z.abs a / 256 ^ Z.of_nat k < 256).
  { apply Z.div_lt_upper_bound; [lia|].
    rewrite Nat2Z.inj_succ, Z.pow_succ_r in Hhi by lia. lia. }
  rewrite Z.mod_small in Heq by lia. lia.
Qed.

(** A magnitude below [256 ^ n] takes at most [n] bytes. *)
Lemma BN_num_bytes_bound (a : BIGNUM) (n : nat) :
  Z.abs a < 256 ^ Z.of_nat n -> (BN_num_bytes a <= n)%nat.
Proof.
  intros Hlt.
  destruct (Z.eq_dec a 0) as [->|Ha]; [rewrite BN_num_bytes_zero; lia|].
  pose proof (BN_num_bits_spec a Ha) as [Hlo _].
  pose proof (BN_num_bytes_bits a Ha) as (Hk & _ & _).
  rewrite pow256 in Hlt.
  assert (Hb : BN_num_bits a - 1 < 8 * Z.of_nat n).
  { apply (Z.pow_lt_mono_r_iff 2); lia. }
  lia.
Qed.

(** ** Scratch buffers and the call log *)

Lemma initialised_filled (d : bytes) : initialised (map Some d) = Some d.
Proof. induction d as [|x d IH]; simpl; [reflexivity|]. rewrite IH. reflexivity. Qed.

Lemma store_after (pre d : bytes) (rest : buffer) :
  (length d <= length rest)%nat ->
  store (map Some pre ++ rest) (length pre) d
  = Some (map Some (pre ++ d) ++ skipn (length d) rest).
Proof.
  intros Hle. unfold store.
  rewrite length_app, length_map.
  destruct (Nat.leb_spec (length pre + length d) (length pre + length rest)); [|lia].
  f_equal.
  rewrite firstn_app, length_map, Nat.sub_diag, firstn_O, app_nil_r.
  rewrite firstn_all2 by (rewrite length_map; lia).
  rewrite skipn_app, length_map.
  rewrite (skipn_all2 (map Some pre)) by (rewrite length_map; lia).
  replace (length pre + length d - length pre)%nat with (length d) by lia.
  rewrite map_app, <- app_assoc. reflexivity.
Qed.

Lemma store_fresh (n : nat) (d : bytes) :
  (length d <= n)%nat ->
  store (luaL_prepbuffsize n) 0 d = Some (map Some d ++ repeat None (n - length d)).
Proof.
  intros Hle. unfold luaL_prepbuffsize.
  pose proof (store_after [] d (repeat None n)) as H.
  rewrite repeat_length in H. specialize (H Hle).
  cbn [map app length] in H. rewrite H. f_equal. f_equal.
  clear H. revert n Hle. induction d as [|x d IH]; intros n Hle.
  - simpl. rewrite Nat.sub_0_r. reflexivity.
  - destruct n as [|n]; [simpl in Hle; lia|].
    cbn [length skipn repeat Nat.sub]. apply IH. simpl in Hle. lia.
Qed.

Lemma store_overrun (b : buffer) (off : nat) (d : bytes) :
  (length b < off + length d)%nat -> store b off d = None.
Proof.
  intros H. unfold store.
  destruct (Nat.leb_spec (off + length d) (length b)); [lia|reflexivity].
Qed.

Lemma store_nothing (pre : bytes) (rest : buffer) :
  store (map Some pre ++ rest) (length pre) [] = Some (map Some pre ++ rest).
Proof.
  rewrite store_after by (simpl; lia). rewrite app_nil_r. reflexivity.
Qed.

Lemma length_zero_nil {A} (l : list A) : (length l =? 0)%nat = true -> l = [].
Proof. destruct l; [reflexivity|discriminate]. Qed.

Lemma pushresultsize_filled {W} (d : bytes) (rest : buffer) (st : machine W) :
  luaL_pushresultsize (map Some d ++ rest) (length d) st = (Returns d, st).
Proof.
  unfold luaL_pushresultsize.
  rewrite length_app, length_map.
  destruct (Nat.leb_spec (length d) (length d + length rest)); [|lia].
  rewrite firstn_app, length_map, Nat.sub_diag, firstn_O, app_nil_r.
  rewrite firstn_all2 by (rewrite length_map; lia).
  rewrite initialised_filled. reflexivity.
Qed.

Lemma since_calls {W} (st : machine W) (w : W) (l : list native_call) :
  since st {| world := w; calls := calls st ++ l |} = l.
Proof.
  unfold since. cbn [calls].
  rewrite skipn_app, Nat.sub_diag, skipn_all. reflexivity.
Qed.

Lemma since_refl {W} (st : machine W) : since st st = [].
Proof. unfold since. apply skipn_all. Qed.

(** ** Proof automation for the glue monad *)

Ltac glue_unfold :=
  cbv beta iota zeta delta
    [bind native native_void native_get ret raise defined
     undefined_behaviour luaL_checklstring luaL_argcheck
     new_managed_EVP_MD_CTX new_managed_EVP_CIPHER_CTX new_managed_BIO_s_mem
     lua_arg nth_error];
  cbn [world calls].

Ltac glue_simpl := cbv beta iota zeta; cbn [world calls].

Ltac in_log :=
  repeat match goal with
  | H : In _ (_ :: _) |- _ => destruct H as [H|H]
  | H : In _ [] |- _ => destruct H
  | H : exists _, _ |- _ => destruct H
  | H : _ /\ _ |- _ => destruct H
  | H : _ \/ _ |- _ => destruct H
  | H : @eq native_call _ _ |- _ => first [discriminate H | injection H as ?; subst]
  | H : @eq lua_value _ _ |- _ => discriminate H
  end.


Ltac expect_one r :=
  destruct (Z.eqb_spec 1 r) as [<-|]; cbn [negb]; glue_simpl;
  [|intros; discriminate].

Ltac sign_tail :=
  repeat match goal with
  | |- context [lua_tolstring ?a ?i] =>
      destruct (lua_tolstring a i) as [?|]; glue_simpl
  | |- context [EVP_DigestSign_size ?s ?c ?m ?w] =>
      destruct (EVP_DigestSign_size s c m w) as [[? ?] ?]; glue_simpl
  | |- context [EVP_DigestSign ?s ?c ?n ?m ?w] =>
      destruct (EVP_DigestSign s c n m w) as [[? ?] ?]; glue_simpl
  | |- context [store ?b ?o ?d] =>
      destruct (store b o d) as [?|]; glue_simpl
  | |- context [negb (?r =? 1)] =>
      destruct (negb (r =? 1)); glue_simpl
  end.

Section Properties.

Context {W : Type} (ssl : OpenSSL W) (LUAL_BUFFERSIZE : nat).

Lemma bind_unfold {A B} (m : M W A) (k : A -> M W B) (st : machine W) :
  bind m k st = match m st with
                | (Returns a, st') => k a st'
                | (Raises e, st') => (Raises e, st')
                | (Undefined u, st') => (Undefined u, st')
                end.
Proof. reflexivity. Qed.

Lemma pushresultsize_state {A} (b : buffer) (n : nat) (k : bytes -> A)
    (st : machine W) :
  snd (let (o, st') := luaL_pushresultsize b n st in
       match o with
       | Returns a => (Returns (k a), st')
       | Raises e => (Raises e, st')
       | Undefined u => (Undefined u, st')
       end) = st.
Proof.
  unfold luaL_pushresultsize, defined, ret, undefined_behaviour.
  destruct (n <=? length b)%nat; [|reflexivity].
  destruct (initialised (firstn n b)); reflexivity.
Qed.

Lemma aead_cases (name : string) (klen : nat) :
  In (name, klen) aead_operations ->
  exists cipher,
    call ssl LUAL_BUFFERSIZE name = Laes_gcm_encrypt ssl cipher klen
    \/ call ssl LUAL_BUFFERSIZE name = Laes_gcm_decrypt ssl cipher klen.
Proof.
  unfold aead_operations. simpl.
  intros [H|[H|[H|[H|[]]]]]; injection H as <- <-;
    (exists EVP_aes_128_gcm + exists EVP_aes_256_gcm);
    ((left; reflexivity) + (right; reflexivity)).
Qed.

Lemma sign_cases (name : string) (type : Z) :
  In (name, type) sign_operations ->
  exists key_type md,
    call ssl LUAL_BUFFERSIZE name = base_evp_sign ssl LUAL_BUFFERSIZE key_type md
    /\ expected_type key_type = type /\ type <> 0
    /\ (key_type = NID_rsassaPss <-> name = "rsassa_pss_256_sign"%string).
Proof.
  unfold sign_operations. simpl.
  intros [H|[H|[H|[H|[]]]]]; injection H as <- <-.
  - exists NID_ED25519, None. repeat split; discriminate.
  - exists NID_rsaEncryption, (Some EVP_sha256). repeat split; discriminate.
  - exists NID_rsassaPss, (Some EVP_sha256). repeat split; discriminate.
  - exists NID_X9_62_id_ecPublicKey, (Some EVP_sha256). repeat split; discriminate.
Qed.

Lemma verify_cases (name : string) (type : Z) :
  In (name, type) verify_operations ->
  exists key_type md,
    call ssl LUAL_BUFFERSIZE name = base_evp_verify ssl key_type md
    /\ expected_type key_type = type /\ type <> 0
    /\ (key_type = NID_rsassaPss <-> name = "rsassa_pss_256_verify"%string).
Proof.
  unfold verify_operations. simpl.
  intros [H|[H|[H|[H|[]]]]]; injection H as <- <-.
  - exists NID_ED25519, None. repeat split; discriminate.
  - exists NID_rsaEncryption, (Some EVP_sha256). repeat split; discriminate.
  - exists NID_rsassaPss, (Some EVP_sha256). repeat split; discriminate.
  - exists NID_X9_62_id_ecPublicKey, (Some EVP_sha256). repeat split; discriminate.
Qed.

(** *** Key handles *)

(** A handle made by [push_pkey] reads back as it was made. *)
Lemma push_pkey_attributes (pkey : ptr) (type privkey : Z) :
  exists k,
    push_pkey pkey type privkey = LKey k
    /\ ud_pkey k = pkey
    /\ algorithm k = type
    /\ has_private_material k = negb (privkey =? 0).
Proof.
  unfold push_pkey. eexists. split; [reflexivity|].
  unfold algorithm, has_private_material, lua_getfield. cbn [ud_pkey ud_uservalue].
  split; [reflexivity|].
  destruct (Z.eqb_spec type 0) as [->|Ht], (Z.eqb_spec privkey 0) as [->|Hp];
    cbn [negb].
  - rewrite !lookup_empty. split; reflexivity.
  - rewrite lookup_insert_ne by discriminate.
    rewrite lookup_insert_eq, lookup_empty. split; reflexivity.
  - rewrite lookup_insert_eq, lookup_insert_ne by discriminate.
    rewrite lookup_empty. split; reflexivity.
  - rewrite lookup_insert_ne by discriminate.
    rewrite !lookup_insert_eq. split; reflexivity.
Qed.

(** The import functions: a key read from a public PEM has no private
    material, a key read from a private PEM has; a failed read gives [nil]. *)
Lemma Limport_pem_returns (args vs : list lua_value) (st st' : machine W) :
  (Limport_public_pem ssl args st = (Returns vs, st') ->
   vs = [LNil] \/ exists k, vs = [LKey k] /\ ud_pkey k <> NULL
                            /\ has_private_material k = false)
  /\ (Limport_private_pem ssl args st = (Returns vs, st') ->
      vs = [LNil] \/ exists k, vs = [LKey k] /\ ud_pkey k <> NULL
                               /\ has_private_material k = true).
Proof.
  split.
  - unfold Limport_public_pem, luaL_checklstring.
    destruct (lua_arg args 1) as [[| |pem|]|]; glue_unfold;
      destruct (BIO_new_mem ssl (world st)) as [bio w1]; glue_simpl;
      try discriminate.
    destruct (BIO_write ssl bio pem w1) as [n w2]. glue_simpl.
    destruct (PEM_read_bio_PUBKEY ssl bio w2) as [pkey w3]. glue_simpl.
    destruct (Z.eqb_spec pkey NULL) as [|Hnn]; cbn [negb]; glue_simpl;
      intros H; injection H as <- _; [left; reflexivity|right].
    destruct (push_pkey_attributes pkey (EVP_PKEY_id ssl pkey w3) 0)
      as (k & -> & Hp & _ & Hpriv).
    exists k. split; [reflexivity|]. split; [congruence|exact Hpriv].
  - unfold Limport_private_pem, luaL_checklstring.
    destruct (lua_arg args 1) as [[| |pem|]|]; glue_unfold;
      destruct (BIO_new_mem ssl (world st)) as [bio w1]; glue_simpl;
      try discriminate.
    destruct (BIO_write ssl bio pem w1) as [n w2]. glue_simpl.
    destruct (PEM_read_bio_PrivateKey ssl bio w2) as [pkey w3]. glue_simpl.
    destruct (Z.eqb_spec pkey NULL) as [|Hnn]; cbn [negb]; glue_simpl;
      intros H; injection H as <- _; [left; reflexivity|right].
    destruct (push_pkey_attributes pkey (EVP_PKEY_id ssl pkey w3) 1)
      as (k & -> & Hp & _ & Hpriv).
    exists k. split; [reflexivity|]. split; [congruence|exact Hpriv].
Qed.

Lemma pkey_from_arg_spec (k : pkey_ud) (rest : list lua_value)
    (type require_private : Z) (st : machine W) :
  type <> 0 ->
  pkey_from_arg (LKey k :: rest) 1 type require_private st
  = if negb (algorithm k =? type) then (Raises (TypeMismatch 1), st)
    else if negb (require_private =? 0) && negb (has_private_material k)
         then (Raises (CapabilityMismatch 1), st)
         else (Returns (ud_pkey k), st).
Proof.
  intros Ht. unfold pkey_from_arg, algorithm, has_private_material, bind,
    luaL_checkudata, ret, raise, TypeMismatch, CapabilityMismatch.
  cbn [lua_arg nth_error].
  destruct (Z.eqb_spec type 0); [contradiction|]. cbn [negb orb].
  destruct (lua_tointeger (lua_getfield (ud_uservalue k) "type") =? type);
    cbn [negb]; [|reflexivity].
  destruct (require_private =? 0); cbn [negb andb]; [reflexivity|].
  destruct (lua_toboolean (lua_getfield (ud_uservalue k) "private") =? 1);
    reflexivity.
Qed.


(** [Lgenerate_ed25519_keypair] always returns a handle: the four library calls are made in order, their status codes are dropped, and whatever [EVP_PKEY_keygen] left in [pkey] is wrapped. *)
Lemma Lgenerate_ed25519_keypair_run (args : list lua_value) (st : machine W) :
  exists pctx r0 r pkey w,
    Lgenerate_ed25519_keypair ssl args st
    = (Returns [push_pkey pkey NID_ED25519 1],
       {| world := w;
          calls := calls st ++
            [call_EVP_PKEY_CTX_new_id EVP_PKEY_ED25519 pctx;
             call_EVP_PKEY_keygen_init pctx r0;
             call_EVP_PKEY_keygen pctx r pkey;
             call_EVP_PKEY_CTX_free pctx] |}).
Proof.
  unfold Lgenerate_ed25519_keypair. glue_unfold.
  destruct (EVP_PKEY_CTX_new_id ssl EVP_PKEY_ED25519 (world st)) as [pctx w1].
  glue_simpl.
  destruct (EVP_PKEY_keygen_init ssl pctx w1) as [r0 w2]. glue_simpl.
  destruct (EVP_PKEY_keygen ssl pctx NULL w2) as [[r pkey] w3]. glue_simpl.
  exists pctx, r0, r, pkey, (EVP_PKEY_CTX_free ssl pctx w3).
  rewrite <- !app_assoc. reflexivity.
Qed.

(** Claim C2.  When the native key generation fails ([EVP_PKEY_keygen]
    reports [r <= 0] and leaves the key pointer [NULL]),
    [Lgenerate_ed25519_keypair] does not fail: it returns a handle tagged
    Ed25519 and private, and that handle wraps [NULL]. *)
Theorem generate_ed25519_keypair_failed_keygen
    (args : list lua_value) (st : machine W)
    (pctx : ptr) (w1 w2 w3 : W) (r0 r : Z) :
  EVP_PKEY_CTX_new_id ssl EVP_PKEY_ED25519 (world st) = (pctx, w1) ->
  EVP_PKEY_keygen_init ssl pctx w1 = (r0, w2) ->
  EVP_PKEY_keygen ssl pctx NULL w2 = ((r, NULL), w3) ->
  r <= 0 ->
  exists k,
    fst (Lgenerate_ed25519_keypair ssl args st) = Returns [LKey k]
    /\ ud_pkey k = NULL
    /\ algorithm k = NID_ED25519
    /\ has_private_material k = true.
Proof.
  intros H1 H2 H3 _.
  unfold Lgenerate_ed25519_keypair. glue_unfold.
  rewrite H1. glue_simpl. rewrite H2. glue_simpl.
  rewrite H3. glue_simpl. cbn [fst].
  eexists. split; [reflexivity|]. repeat split.
Qed.

(** Claim C3, as amended.  A signing operation called on a handle without
    private material fails before any library call is made (the machine,
    call log included, is unchanged): with the "unexpected key type" error
    when the handle's algorithm is not the one the operation expects, and
    with the "private key expected" error when it is. *)
Theorem sign_public_only_rejected (name : string) (type : Z) (k : pkey_ud)
    (rest : list lua_value) (st : machine W) :
  In (name, type) sign_operations ->
  has_private_material k = false ->
  call ssl LUAL_BUFFERSIZE name (LKey k :: rest) st
  = (Raises (if algorithm k =? type then CapabilityMismatch 1 else TypeMismatch 1), st).
Proof.
  intros Hin Hpub.
  destruct (sign_cases name type Hin) as (key_type & md & -> & Ht & Hnz & _).
  unfold base_evp_sign. unfold bind at 1.
  fold (expected_type key_type). rewrite Ht.
  rewrite pkey_from_arg_spec by assumption. rewrite Hpub.
  destruct (algorithm k =? type); reflexivity.
Qed.

(** *** Signing and verification *)

Lemma base_evp_verify_run (key_type : Z) (md : option EVP_MD) (k : pkey_ud)
    (msg sig : bytes) (st : machine W) :
  expected_type key_type <> 0 ->
  algorithm k = expected_type key_type ->
  exists ctx r0 w,
    (r0 <> 1 /\
     base_evp_verify ssl key_type md [LKey k; LString msg; LString sig] st
     = (Returns [LNil],
        {| world := w;
           calls := calls st ++
             [call_EVP_MD_CTX_new ctx;
              call_EVP_DigestVerifyInit ctx md (ud_pkey k) r0;
              call_EVP_MD_CTX_free ctx] |}))
    \/ (r0 = 1 /\ exists wp rp x,
     base_evp_verify ssl key_type md [LKey k; LString msg; LString sig] st
     = (Returns [verdict x],
        {| world := w;
           calls := calls st ++
             [call_EVP_MD_CTX_new ctx;
              call_EVP_DigestVerifyInit ctx md (ud_pkey k) 1]
             ++ padding_calls key_type (EVP_MD_CTX_pkey_ctx ssl ctx wp) rp
             ++ [call_EVP_DigestVerify ctx sig msg x;
                 call_EVP_MD_CTX_free ctx] |})).
Proof.
  intros Hnz Halg.
  unfold base_evp_verify. rewrite bind_unfold. fold (expected_type key_type).
  rewrite pkey_from_arg_spec by assumption.
  rewrite Halg, Z.eqb_refl. cbn [negb andb Z.eqb].
  glue_unfold.
  destruct (EVP_MD_CTX_new ssl (world st)) as [ctx w1]. glue_simpl.
  destruct (EVP_DigestVerifyInit ssl ctx md (ud_pkey k) w1) as [r0 w2] eqn:Einit.
  glue_simpl.
  exists ctx, r0.
  destruct (Z.eqb_spec r0 1) as [->|Hr0]; cbn [negb].
  - unfold padding_calls.
    destruct (key_type =? NID_rsassaPss).
    + glue_simpl.
      destruct (EVP_PKEY_CTX_set_rsa_padding ssl (EVP_MD_CTX_pkey_ctx ssl ctx w2)
                  RSA_PKCS1_PSS_PADDING w2) as [rp w3].
      glue_simpl.
      destruct (EVP_DigestVerify ssl ctx sig msg w3) as [x w4]. glue_simpl.
      exists (EVP_MD_CTX_free ssl ctx w4). right. split; [reflexivity|].
      exists w2, rp, x.
      unfold verdict.
      destruct (x =? 0); [|destruct (x =? 1)]; cbn [negb]; glue_simpl;
        rewrite <- !app_assoc; reflexivity.
    + glue_simpl.
      destruct (EVP_DigestVerify ssl ctx sig msg w2) as [x w4]. glue_simpl.
      exists (EVP_MD_CTX_free ssl ctx w4). right. split; [reflexivity|].
      exists w2, 0, x.
      unfold verdict.
      destruct (x =? 0); [|destruct (x =? 1)]; cbn [negb]; glue_simpl;
        rewrite <- !app_assoc; reflexivity.
  - exists (EVP_MD_CTX_free ssl ctx w2). left. split; [assumption|].
    glue_simpl. rewrite <- !app_assoc. reflexivity.
Qed.


Lemma base_evp_sign_log (key_type : Z) (md : option EVP_MD) (k : pkey_ud)
    (rest : list lua_value) (st : machine W) :
  expected_type key_type <> 0 ->
  algorithm k = expected_type key_type ->
  has_private_material k = true ->
  exists ctx r0 post,
    since st (snd (base_evp_sign ssl LUAL_BUFFERSIZE key_type md (LKey k :: rest) st))
    = call_EVP_MD_CTX_new ctx
      :: call_EVP_DigestSignInit ctx md (ud_pkey k) r0 :: post
    /\ (r0 <> 1 -> post = [])
    /\ (r0 = 1 -> exists wp rp post',
          post = padding_calls key_type (EVP_MD_CTX_pkey_ctx ssl ctx wp) rp ++ post'
          /\ existsb selects_rsa_padding post' = false).
Proof.
  intros Hnz Halg Hpriv.
  unfold base_evp_sign. rewrite bind_unfold. fold (expected_type key_type).
  rewrite pkey_from_arg_spec by assumption.
  rewrite Halg, Z.eqb_refl, Hpriv. cbn [negb andb Z.eqb].
  glue_unfold.
  destruct (EVP_MD_CTX_new ssl (world st)) as [ctx w1]. glue_simpl.
  destruct (EVP_DigestSignInit ssl ctx md (ud_pkey k) w1) as [r0 w2]. glue_simpl.
  exists ctx, r0.
  destruct (Z.eqb_spec r0 1) as [->|Hr0]; cbn [negb].
  2: { exists []. cbn [snd]. rewrite <- app_assoc. rewrite since_calls.
       split; [reflexivity|]. split; [reflexivity|contradiction]. }
  unfold padding_calls.
  destruct (key_type =? NID_rsassaPss).
  - glue_simpl.
    destruct (EVP_PKEY_CTX_set_rsa_padding ssl (EVP_MD_CTX_pkey_ctx ssl ctx w2)
                RSA_PKCS1_PSS_PADDING w2) as [rp w3] eqn:Epad.
    glue_simpl. sign_tail; cbn [snd]; rewrite ?pushresultsize_state;
      rewrite <- ?app_assoc; rewrite since_calls;
      cbn [app];
      (eexists; split; [reflexivity|]; split; [congruence|]; intros _;
       eexists _, _, _; split; [reflexivity|reflexivity]).
  - glue_simpl. sign_tail; cbn [snd]; rewrite ?pushresultsize_state;
      rewrite <- ?app_assoc; rewrite since_calls; cbn [app];
      (eexists; split; [reflexivity|]; split; [congruence|]; intros _;
       exists w2, 0; eexists; split; [reflexivity|reflexivity]).
Qed.




(** *** AES-GCM *)

(** Claim C7.  An AEAD operation called with a key whose length is not
    the one of its variant raises ["key must be %d bytes"] with that length;
    called with a key of the right length and a nonce that is not 12 bytes
    long it raises the argument error on argument 2, ["iv must be 12
    bytes"].  In both cases the machine is unchanged (no library call was
    made) and nothing is returned. *)
Theorem aead_wrong_length_rejected (name : string) (klen : nat)
    (key iv data : bytes) (rest : list lua_value) (st : machine W) :
  In (name, klen) aead_operations ->
  let args := LString key :: LString iv :: LString data :: rest in
  (length key <> klen ->
   call ssl LUAL_BUFFERSIZE name args st
   = (Raises (luaL_error "key must be %d bytes" [Z.of_nat klen]), st))
  /\ (length key = klen -> length iv <> 12%nat ->
      call ssl LUAL_BUFFERSIZE name args st
      = (Raises (luaL_argerror 2 "iv must be 12 bytes"), st)).
Proof.
  intros Hin args. destruct (aead_cases name klen Hin) as [cipher [-> | ->]];
    subst args; split.
  - intros Hk. unfold Laes_gcm_encrypt, bind, luaL_checklstring, ret, raise. cbn [lua_arg nth_error].
    destruct (Nat.eqb_spec (length key) klen); [contradiction|]. reflexivity.
  - intros Hk Hiv. unfold Laes_gcm_encrypt, bind, luaL_checklstring, luaL_argcheck, ret, raise. cbn [lua_arg nth_error].
    destruct (Nat.eqb_spec (length key) klen); [|contradiction]. cbn [negb].
    destruct (Nat.eqb_spec (length iv) 12); [contradiction|]. reflexivity.
  - intros Hk. unfold Laes_gcm_decrypt, bind, luaL_checklstring, ret, raise. cbn [lua_arg nth_error].
    destruct (Nat.eqb_spec (length key) klen); [contradiction|]. reflexivity.
  - intros Hk Hiv. unfold Laes_gcm_decrypt, bind, luaL_checklstring, luaL_argcheck, ret, raise. cbn [lua_arg nth_error].
    destruct (Nat.eqb_spec (length key) klen); [|contradiction]. cbn [negb].
    destruct (Nat.eqb_spec (length iv) 12); [contradiction|]. reflexivity.
Qed.

Lemma Laes_gcm_encrypt_returns (cipher : EVP_CIPHER) (klen : nat)
    (key iv plaintext : bytes) (st st' : machine W) (vs : list lua_value) :
  gcm_laws ssl ->
  Laes_gcm_encrypt ssl cipher klen
    [LString key; LString iv; LString plaintext] st = (Returns vs, st') ->
  exists ctx c tag,
    length key = klen /\ length iv = 12%nat
    /\ vs = [LString (c ++ tag)]
    /\ length c = length plaintext
    /\ length tag = 16%nat
    /\ length (c ++ tag) = (length plaintext + 16)%nat
    /\ since st st' =
         [call_EVP_CIPHER_CTX_new ctx;
          call_EVP_EncryptInit_ex ctx (Some cipher) None None 1;
          call_EVP_EncryptInit_ex ctx None (Some key) (Some iv) 1;
          call_EVP_EncryptUpdate ctx plaintext 1 c;
          call_EVP_EncryptFinal_ex ctx 1 [];
          call_EVP_CTRL_AEAD_GET_TAG ctx 16 1 tag].
Proof.
  intros Hgcm. unfold Laes_gcm_encrypt. glue_unfold.
  destruct (Nat.eqb_spec (length key) klen) as [Hkey|]; [|discriminate].
  cbn [negb].
  destruct (Nat.eqb_spec (length iv) 12) as [Hiv|]; [|discriminate]. glue_simpl.
  cbn [lua_gettop length Nat.ltb Nat.leb].
  destruct (EVP_CIPHER_CTX_new ssl (world st)) as [ctx w1]. glue_simpl.
  destruct (EVP_EncryptInit_ex ssl ctx (Some cipher) None None w1) as [r1 w2].
  glue_simpl.
  expect_one r1.
  destruct (EVP_EncryptInit_ex ssl ctx None (Some key) (Some iv) w2) as [r2 w3].
  glue_simpl.
  expect_one r2.
  destruct (EVP_EncryptUpdate ssl ctx plaintext w3) as [[r3 c] w4] eqn:Eupd.
  glue_simpl.
  destruct (store (luaL_prepbuffsize (length plaintext + 16)) 0 c) as [b1|] eqn:Eb1;
    [|discriminate]. glue_simpl.
  expect_one r3.
  pose proof (gcm_encrypt_update_length ssl Hgcm _ _ _ _ _ _ Eupd eq_refl) as Hc.
  rewrite store_fresh in Eb1 by lia. injection Eb1 as <-.
  destruct (EVP_EncryptFinal_ex ssl ctx w4) as [[r4 fin] w5]. glue_simpl.
  match goal with
  | |- context [store ?b (length c) fin] =>
      destruct (store b (length c) fin) as [b2|] eqn:Eb2; [|discriminate]
  end. glue_simpl.
  expect_one r4.
  destruct (length fin =? 0)%nat eqn:Efin; cbn [negb]; glue_simpl; [|discriminate].
  apply length_zero_nil in Efin. subst fin.
  rewrite store_nothing in Eb2. injection Eb2 as <-.
  destruct (EVP_CTRL_AEAD_GET_TAG ssl ctx 16 w5) as [[r5 tag] w6] eqn:Etag.
  glue_simpl.
  match goal with
  | |- context [store ?b (length c) tag] =>
      destruct (store b (length c) tag) as [b3|] eqn:Eb3; [|discriminate]
  end. glue_simpl.
  expect_one r5.
  pose proof (gcm_get_tag_length ssl Hgcm _ _ _ _ _ _ Etag eq_refl) as Ht.
  rewrite store_after in Eb3 by (rewrite repeat_length; lia). injection Eb3 as <-.
  replace (length c + 16)%nat with (length (c ++ tag)) by (rewrite length_app; lia).
  rewrite pushresultsize_filled.
  intros H. injection H as <- <-.
  exists ctx, c, tag. repeat split; try assumption.
  - rewrite length_app. lia.
  - rewrite <- !app_assoc. rewrite since_calls. reflexivity.
Qed.




(** Claim C1, at plaintext length 0.  What encryption returns for the
    empty plaintext is 16 bytes long (the tag alone), and decryption refuses
    every 16-byte input: its check is [ciphertext_len > 16], and it raises
    the argument error whose own text asks for "at least 16 bytes".  The
    round trip does not give back the empty plaintext. *)
Theorem aes_gcm_empty_plaintext_rejected (cipher : EVP_CIPHER) (klen : nat)
    (key iv : bytes) (st st' : machine W) (vs : list lua_value) :
  gcm_laws ssl ->
  Laes_gcm_encrypt ssl cipher klen [LString key; LString iv; LString []] st
  = (Returns vs, st') ->
  exists ct,
    vs = [LString ct] /\ length ct = 16%nat
    /\ forall st2,
         Laes_gcm_decrypt ssl cipher klen [LString key; LString iv; LString ct] st2
         = (Raises (luaL_argerror 3
                      "ciphertext must be at least 16 bytes (including tag)"), st2).
Proof.
  intros Hgcm Hrun.
  destruct (Laes_gcm_encrypt_returns cipher klen key iv [] st st' vs Hgcm Hrun)
    as (ctx & c & tag & Hkey & Hiv & -> & _ & _ & Hlen & _).
  exists (c ++ tag). split; [reflexivity|]. cbn [length Nat.add] in Hlen.
  split; [exact Hlen|]. intros st2.
  unfold Laes_gcm_decrypt. glue_unfold.
  rewrite Hkey, Nat.eqb_refl, Hiv, Hlen. reflexivity.
Qed.

(** *** The ECDSA signature codec *)

Lemma prepbuffer_store (d : bytes) (n : nat) (st : machine W) :
  (length d <= LUAL_BUFFERSIZE)%nat -> n = length d ->
  bind (defined (store (luaL_prepbuffer LUAL_BUFFERSIZE) 0 d) buffer_overrun)
    (fun b => luaL_pushresultsize b n) st = (Returns d, st).
Proof.
  intros Hle ->. unfold luaL_prepbuffer, bind, defined, ret.
  rewrite store_fresh by assumption. apply pushresultsize_filled.
Qed.

Lemma prepbuffer_overrun {A} (d : bytes) (k : buffer -> M W A) (st : machine W) :
  (LUAL_BUFFERSIZE < length d)%nat ->
  bind (defined (store (luaL_prepbuffer LUAL_BUFFERSIZE) 0 d) buffer_overrun) k st
  = (Undefined buffer_overrun, st).
Proof.
  intros Hlt. unfold luaL_prepbuffer, luaL_prepbuffsize, bind, defined.
  rewrite store_overrun by (rewrite repeat_length; simpl; lia). reflexivity.
Qed.

Lemma Lparse_ecdsa_signature_run (der : bytes) (r s : BIGNUM) (st : machine W) :
  d2i_ECDSA_SIG ssl der = Some (r, s) ->
  (BN_num_bytes r <= LUAL_BUFFERSIZE)%nat ->
  (BN_num_bytes s <= LUAL_BUFFERSIZE)%nat ->
  Lparse_ecdsa_signature ssl LUAL_BUFFERSIZE [LString der] st
  = (Returns [LString (BN_bn2bin r); LString (BN_bn2bin s)], st).
Proof.
  intros Hd Hr Hs. unfold Lparse_ecdsa_signature.
  rewrite bind_unfold. unfold luaL_checklstring at 1. cbn [lua_arg nth_error].
  unfold ret at 1. rewrite Hd.
  rewrite <- (BN_bn2bin_length r) in Hr. rewrite <- (BN_bn2bin_length s) in Hs.
  unfold luaL_prepbuffer, bind, defined, ret.
  rewrite !store_fresh by assumption.
  rewrite <- (BN_bn2bin_length r), <- (BN_bn2bin_length s).
  rewrite !pushresultsize_filled. reflexivity.
Qed.

Lemma Lbuild_ecdsa_signature_run (rbin sbin der : bytes) (st : machine W) :
  i2d_ECDSA_SIG ssl (BN_bin2bn rbin) (BN_bin2bn sbin) = Some der ->
  (length der <= LUAL_BUFFERSIZE)%nat ->
  Lbuild_ecdsa_signature ssl LUAL_BUFFERSIZE [LString rbin; LString sbin] st
  = (Returns [LString der], st).
Proof.
  intros Hi Hle. unfold Lbuild_ecdsa_signature. glue_unfold.
  rewrite Hi. unfold luaL_prepbuffer.
  rewrite store_fresh by assumption. rewrite pushresultsize_filled. reflexivity.
Qed.

(** The compile-time guard of [Lparse_ecdsa_signature],
    [LUAL_BUFFERSIZE >= 32], makes room for the components of a P-256
    signature. *)
Lemma Lparse_ecdsa_signature_p256 (der : bytes) (r s : BIGNUM) (st : machine W) :
  (32 <= LUAL_BUFFERSIZE)%nat ->
  d2i_ECDSA_SIG ssl der = Some (r, s) ->
  Z.abs r < 2 ^ 256 -> Z.abs s < 2 ^ 256 ->
  Lparse_ecdsa_signature ssl LUAL_BUFFERSIZE [LString der] st
  = (Returns [LString (BN_bn2bin r); LString (BN_bn2bin s)], st).
Proof.
  intros Hguard Hd Hr Hs.
  apply Lparse_ecdsa_signature_run; [exact Hd| |].
  - pose proof (BN_num_bytes_bound r 32 Hr). lia.
  - pose proof (BN_num_bytes_bound s 32 Hs). lia.
Qed.

(** Claim C8, above the buffer size.  For a well-formed DER signature one
    of whose integers has a magnitude of more than [LUAL_BUFFERSIZE] bytes,
    [BN_bn2bin] writes past the end of the region [luaL_prepbuffer] handed
    out: the call has no defined result. *)
Theorem parse_ecdsa_signature_overrun (der : bytes) (r s : BIGNUM) (st : machine W) :
  d2i_ECDSA_SIG ssl der = Some (r, s) ->
  (LUAL_BUFFERSIZE < BN_num_bytes r)%nat \/ (LUAL_BUFFERSIZE < BN_num_bytes s)%nat ->
  Lparse_ecdsa_signature ssl LUAL_BUFFERSIZE [LString der] st
  = (Undefined buffer_overrun, st).
Proof.
  intros Hd Hbig. unfold Lparse_ecdsa_signature.
  rewrite bind_unfold. unfold luaL_checklstring at 1. cbn [lua_arg nth_error].
  unfold ret at 1. rewrite Hd.
  destruct (Nat.le_gt_cases (BN_num_bytes r) LUAL_BUFFERSIZE) as [Hr|Hr].
  - destruct Hbig as [Hbig|Hs]; [lia|].
    rewrite <- (BN_bn2bin_length r) in Hr. rewrite <- (BN_bn2bin_length s) in Hs.
    unfold luaL_prepbuffer, luaL_prepbuffsize, bind, defined, ret.
    rewrite (store_fresh _ (BN_bn2bin r)) by assumption.
    rewrite <- (BN_bn2bin_length r). rewrite pushresultsize_filled.
    rewrite store_overrun by (rewrite repeat_length; simpl; lia). reflexivity.
  - rewrite <- (BN_bn2bin_length r) in Hr. apply prepbuffer_overrun. assumption.
Qed.

(** Within the buffer size the codec does what claim C8 says: parsing
    yields the minimal big-endian magnitudes, and building from them and
    parsing again yields the same two strings. *)
Lemma ecdsa_roundtrip_within_buffer (der der' : bytes) (r s : BIGNUM)
    (st : machine W) :
  d2i_ECDSA_SIG ssl der = Some (r, s) ->
  (BN_num_bytes r <= LUAL_BUFFERSIZE)%nat ->
  (BN_num_bytes s <= LUAL_BUFFERSIZE)%nat ->
  i2d_ECDSA_SIG ssl (Z.abs r) (Z.abs s) = Some der' ->
  (length der' <= LUAL_BUFFERSIZE)%nat ->
  d2i_ECDSA_SIG ssl der' = Some (Z.abs r, Z.abs s) ->
  let rb := BN_bn2bin r in
  let sb := BN_bn2bin s in
  Lparse_ecdsa_signature ssl LUAL_BUFFERSIZE [LString der] st
  = (Returns [LString rb; LString sb], st)
  /\ hd_error rb <> Some x00 /\ hd_error sb <> Some x00
  /\ be_decode rb = Z.abs r /\ be_decode sb = Z.abs s
  /\ Lbuild_ecdsa_signature ssl LUAL_BUFFERSIZE [LString rb; LString sb] st
     = (Returns [LString der'], st)
  /\ Lparse_ecdsa_signature ssl LUAL_BUFFERSIZE [LString der'] st
     = (Returns [LString rb; LString sb], st).
Proof.
  intros Hd Hr Hs Hi Hlen Hd' rb sb. subst rb sb.
  split; [apply Lparse_ecdsa_signature_run; assumption|].
  split; [apply BN_bn2bin_minimal|].
  split; [apply BN_bn2bin_minimal|].
  split; [apply BN_bin2bn_bn2bin|].
  split; [apply BN_bin2bn_bn2bin|].
  split.
  - apply Lbuild_ecdsa_signature_run; [|assumption].
    rewrite !BN_bin2bn_bn2bin. assumption.
  - assert (Habs : forall a, BN_bn2bin (Z.abs a) = BN_bn2bin a).
    { intros a. unfold BN_bn2bin, BN_num_bytes, BN_num_bits.
      rewrite Z.abs_idemp. reflexivity. }
    rewrite <- (Habs r), <- (Habs s).
    apply Lparse_ecdsa_signature_run; [assumption| |].
    + unfold BN_num_bytes, BN_num_bits in *. rewrite Z.abs_idemp. assumption.
    + unfold BN_num_bytes, BN_num_bits in *. rewrite Z.abs_idemp. assumption.
Qed.


End Properties.

(** * The reference library at work *)

Lemma ref_gcm_laws : gcm_laws Ref.ssl.
Proof.
  constructor.
  - intros ctx input w r out w' H Hr. cbn in H.
    destruct (Ref.find ctx (Ref.heap w)) as [[]|]; injection H as <- <- _;
      try discriminate.
    unfold Ref.mask. apply length_map.
  - intros ctx n w r tag w' H Hr. cbn in H.
    destruct (Ref.find ctx (Ref.heap w)) as [[]|]; injection H as <- <- _;
      try discriminate.
    unfold Ref.tag_of. apply be_encode_length.
  - intros ctx input w r out w' H Hr. cbn in H.
    destruct (Ref.find ctx (Ref.heap w)) as [[]|]; injection H as <- <- _;
      try contradiction.
    unfold Ref.mask. apply length_map.
  - intros ctx w r out w' H. cbn in H.
    destruct (Ref.find ctx (Ref.heap w)) as [[| | | |c k v seen [tag|]]|];
      try (injection H as _ <- _; reflexivity).
    match type of H with
    | (if ?b then _ else _) = _ => destruct b
    end; injection H as _ <- _; reflexivity.
Qed.

(** ** The reference DER coder *)

Lemma take_length_der_length (n : nat) (l rest : bytes) :
  Ref.der_length n = Some l -> Ref.take_length (l ++ rest) = Some (n, rest).
Proof.
  unfold Ref.der_length. cbv zeta.
  destruct (Z.ltb_spec (Z.of_nat n) 128) as [H1|H1].
  { intros H. injection H as <-. cbn [app Ref.take_length].
    rewrite byte_of_Z_small by lia.
    destruct (Z.ltb_spec (Z.of_nat n) 128); [|lia]. rewrite Nat2Z.id. reflexivity. }
  destruct (Z.ltb_spec (Z.of_nat n) 256) as [H2|H2].
  { intros H. injection H as <-. cbn [app Ref.take_length].
    change (Z_of_byte x81) with 129. cbn [Z.ltb Z.eqb Z.compare Pos.compare Pos.compare_cont Pos.eqb].
    rewrite byte_of_Z_small by lia.
    destruct (Z.leb_spec 128 (Z.of_nat n)); [|lia]. rewrite Nat2Z.id. reflexivity. }
  destruct (Z.ltb_spec (Z.of_nat n) 65536) as [H3|H3]; [|discriminate].
  intros H. injection H as <-. cbn [app Ref.take_length].
  change (Z_of_byte x82) with 130. cbn [Z.ltb Z.eqb Z.compare Pos.compare Pos.compare_cont Pos.eqb].
  assert (Hq : 1 <= Z.of_nat n / 256 < 256).
  { split; [apply Z.div_le_lower_bound; lia|apply Z.div_lt_upper_bound; lia]. }
  rewrite (byte_of_Z_small (Z.of_nat n / 256)) by lia.
  rewrite Z_of_byte_of_Z.
  destruct (Z.leb_spec 1 (Z.of_nat n / 256)); [|lia].
  replace (Z.of_nat n / 256 * 256 + Z.of_nat n mod 256) with (Z.of_nat n)
    by (pose proof (Z.div_mod (Z.of_nat n) 256 ltac:(lia)); lia).
  rewrite Nat2Z.id. reflexivity.
Qed.

Lemma take_integer_der_integer (a : BIGNUM) (e rest : bytes) :
  Ref.der_integer a = Some e -> Ref.take_integer (e ++ rest) = Some (a, rest).
Proof.
  unfold Ref.der_integer. cbv zeta.
  destruct (Z.ltb_spec a 0) as [|Ha]; [discriminate|].
  pose proof (BN_bin2bn_bn2bin a) as Hval. unfold BN_bin2bn in Hval.
  rewrite Z.abs_eq in Hval by lia.
  pose proof (BN_bn2bin_minimal a) as Hmin.
  set (content := match BN_bn2bin a with
                  | [] => [x00]
                  | b :: _ => if 128 <=? Z_of_byte b then x00 :: BN_bn2bin a
                              else BN_bn2bin a
                  end).
  destruct (Ref.der_length (length content)) as [len|] eqn:Elen; [|discriminate].
  intros H. injection H as <-. cbn [app Ref.take_integer].
  change (Z_of_byte x02 =? 2) with true. cbv iota.
  rewrite <- app_assoc.
  rewrite (take_length_der_length _ _ _ Elen).
  rewrite length_app.
  destruct (Nat.leb_spec (length content) (length content + length rest)); [|lia].
  rewrite firstn_app, Nat.sub_diag, firstn_O, app_nil_r, firstn_all.
  rewrite skipn_app, Nat.sub_diag, skipn_all, skipn_O. cbn [app].
  assert (Hcontent : be_decode content = a
            /\ exists b more, content = b :: more
                 /\ (128 <=? Z_of_byte b) = false
                 /\ ((Z_of_byte b =? 0)
                     && match more with [] => false | c :: _ => Z_of_byte c <? 128 end)
                    = false).
  { subst content. destruct (BN_bn2bin a) as [|b m] eqn:Emag.
    - split; [exact Hval|]. exists x00, []. repeat split.
    - destruct (Z.leb_spec 128 (Z_of_byte b)) as [Hb|Hb].
      + split; [rewrite be_decode_cons; change (Z_of_byte x00) with 0; lia|].
        exists x00, (b :: m). repeat split.
        change (Z_of_byte x00 =? 0) with true. cbn [andb].
        apply Z.ltb_ge. exact Hb.
      + split; [exact Hval|]. exists b, m. split; [reflexivity|].
        split; [apply Z.leb_gt; exact Hb|].
        destruct (Z.eqb_spec (Z_of_byte b) 0) as [E|]; [|reflexivity].
        exfalso. apply Hmin. cbn [hd_error]. f_equal.
        rewrite <- (byte_of_Z_of_byte b), E. reflexivity. }
  destruct Hcontent as (Hdec & b & more & Hc & Hneg & Hminimal).
  rewrite Hc. rewrite Hneg, Hminimal. rewrite <- Hc, Hdec. reflexivity.
Qed.

(** Decoding what the reference encoder produced gives back the pair. *)
Lemma ref_d2i_i2d (r s : BIGNUM) (der : bytes) :
  Ref.i2d r s = Some der -> Ref.d2i der = Some (r, s).
Proof.
  unfold Ref.i2d.
  destruct (Ref.der_integer r) as [ri|] eqn:Er; [|discriminate].
  destruct (Ref.der_integer s) as [si|] eqn:Es; [|discriminate].
  destruct (Ref.der_length (length (ri ++ si))) as [len|] eqn:Elen; [|discriminate].
  intros H. injection H as <-. unfold Ref.d2i.
  change (Z_of_byte x30 =? 48) with true. cbv iota.
  rewrite (take_length_der_length _ _ _ Elen).
  rewrite Nat.eqb_refl.
  rewrite (take_integer_der_integer r ri si Er).
  rewrite <- (app_nil_r si) at 1.
  rewrite (take_integer_der_integer s si [] Es). reflexivity.
Qed.

Lemma der_length_short (n : nat) :
  (n < 128)%nat -> Ref.der_length n = Some [byte_of_Z (Z.of_nat n)].
Proof.
  intros H. unfold Ref.der_length. cbv zeta.
  destruct (Z.ltb_spec (Z.of_nat n) 128); [reflexivity|lia].
Qed.

Lemma der_integer_p256 (a : BIGNUM) :
  0 <= a < 2 ^ 256 ->
  exists e, Ref.der_integer a = Some e /\ (length e <= 35)%nat.
Proof.
  intros [Ha Hlt]. unfold Ref.der_integer. cbv zeta.
  destruct (Z.ltb_spec a 0); [lia|].
  assert (Hmag : (length (BN_bn2bin a) <= 32)%nat).
  { rewrite BN_bn2bin_length. apply BN_num_bytes_bound.
    rewrite Z.abs_eq by lia. exact Hlt. }
  set (content := match BN_bn2bin a with
                  | [] => [x00]
                  | b :: _ => if 128 <=? Z_of_byte b then x00 :: BN_bn2bin a
                              else BN_bn2bin a
                  end).
  assert (Hc : (length content <= 33)%nat).
  { subst content. destruct (BN_bn2bin a) as [|b m]; [simpl; lia|].
    destruct (128 <=? Z_of_byte b); simpl in *; lia. }
  rewrite der_length_short by lia.
  eexists. split; [reflexivity|]. simpl. lia.
Qed.

(** The encoding of a P-256 sized pair takes at most 72 bytes. *)
Lemma ref_i2d_p256 (r s : BIGNUM) :
  0 <= r < 2 ^ 256 -> 0 <= s < 2 ^ 256 ->
  exists der, Ref.i2d r s = Some der /\ (length der <= 72)%nat.
Proof.
  intros Hr Hs. unfold Ref.i2d.
  destruct (der_integer_p256 r Hr) as (ri & -> & Hri).
  destruct (der_integer_p256 s Hs) as (si & -> & Hsi).
  rewrite der_length_short by (rewrite length_app; lia).
  eexists. split; [reflexivity|]. simpl. rewrite length_app. lia.
Qed.

(** Property X24.  On the reference library, under the two compile-time
    guards of the
    source ([LUAL_BUFFERSIZE >= 32] for parsing, [>= 128] for building), the
    codec round trip holds for every signature with P-256 sized components:
    parsing yields the minimal big-endian strings, building from them yields
    a DER string, and parsing that yields the same strings again. *)
Theorem ref_codec_roundtrip_p256 (LUAL_BUFFERSIZE : nat) (der : bytes)
    (r s : BIGNUM) (st : machine Ref.library) :
  (128 <= LUAL_BUFFERSIZE)%nat ->
  Ref.d2i der = Some (r, s) ->
  Z.abs r < 2 ^ 256 -> Z.abs s < 2 ^ 256 ->
  exists rb sb der',
    Lparse_ecdsa_signature Ref.ssl LUAL_BUFFERSIZE [LString der] st
    = (Returns [LString rb; LString sb], st)
    /\ hd_error rb <> Some x00 /\ hd_error sb <> Some x00
    /\ be_decode rb = Z.abs r /\ be_decode sb = Z.abs s
    /\ Lbuild_ecdsa_signature Ref.ssl LUAL_BUFFERSIZE [LString rb; LString sb] st
       = (Returns [LString der'], st)
    /\ Lparse_ecdsa_signature Ref.ssl LUAL_BUFFERSIZE [LString der'] st
       = (Returns [LString rb; LString sb], st).
Proof.
  intros Hguard Hd Hr Hs.
  destruct (ref_i2d_p256 (Z.abs r) (Z.abs s)) as (der' & Hi & Hlen);
    [pose proof (Z.abs_nonneg r); lia|pose proof (Z.abs_nonneg s); lia|].
  exists (BN_bn2bin r), (BN_bn2bin s), der'.
  apply (ecdsa_roundtrip_within_buffer Ref.ssl LUAL_BUFFERSIZE der der' r s st Hd).
  - pose proof (BN_num_bytes_bound r 32 Hr). lia.
  - pose proof (BN_num_bytes_bound s 32 Hs). lia.
  - exact Hi.
  - lia.
  - apply ref_d2i_i2d. exact Hi.
Qed.

(** ** Instances on concrete inputs *)

Import Sample.

(** A 16-byte key given to the 256-bit variant: refused, nothing run. *)
Lemma aead_wrong_length_rejected_witness :
  call Ref.ssl LUAL_BUFFERSIZE "aes_256_gcm_decrypt"
    [LString key16; LString iv12; LString hello] (Ref.boot false)
  = (Raises (luaL_error "key must be %d bytes" [32]), Ref.boot false).
Proof.
  apply (proj1 (aead_wrong_length_rejected Ref.ssl LUAL_BUFFERSIZE
                  "aes_256_gcm_decrypt" 32 key16 iv12 hello [] (Ref.boot false)
                  ltac:(simpl; tauto))).
  simpl. lia.
Defined.

(** A public RSA key, imported from PEM, given to [ed25519_sign]: the call
    fails with the key type error, not with the private-key error. *)
Lemma sign_public_only_wrong_algorithm :
  exists k st1,
    call Ref.ssl LUAL_BUFFERSIZE "import_public_pem" [LString rsa_public_pem]
      (Ref.boot false) = (Returns [LKey k], st1)
    /\ has_private_material k = false
    /\ call Ref.ssl LUAL_BUFFERSIZE "ed25519_sign" [LKey k; LString hello] st1
       = (Raises (TypeMismatch 1), st1)
    /\ fst (call Ref.ssl LUAL_BUFFERSIZE "ed25519_sign" [LKey k; LString hello] st1)
       <> Raises (CapabilityMismatch 1).
Proof.
  eexists _, _. split; [vm_compute; reflexivity|].
  split; [vm_compute; reflexivity|].
  split; [vm_compute; reflexivity|vm_compute; discriminate].
Qed.

(** A public RSA key given to an RSA signing operation: the private-key error. *)
Lemma sign_public_only_rejected_witness :
  call Ref.ssl LUAL_BUFFERSIZE "rsassa_pkcs1_256_sign"
    [LKey rsa_public; LString hello] (Ref.boot false)
  = (Raises (CapabilityMismatch 1), Ref.boot false).
Proof.
  apply (sign_public_only_rejected Ref.ssl LUAL_BUFFERSIZE
           "rsassa_pkcs1_256_sign" NID_rsaEncryption rsa_public
           [LString hello] (Ref.boot false)).
  - simpl. tauto.
  - reflexivity.
Defined.

(** A library that refuses to generate Ed25519 keys: the function still
    returns a handle, and the handle wraps [NULL]. *)
Lemma generate_ed25519_keypair_failed_keygen_witness :
  exists k,
    fst (Lgenerate_ed25519_keypair Ref.ssl [] (Ref.boot true)) = Returns [LKey k]
    /\ ud_pkey k = NULL
    /\ algorithm k = NID_ED25519
    /\ has_private_material k = true.
Proof.
  apply (generate_ed25519_keypair_failed_keygen Ref.ssl [] (Ref.boot true) 1
           {| Ref.next := 2; Ref.fips := true;
              Ref.heap := [(1, Ref.OPkeyCtx EVP_PKEY_ED25519)] |}
           {| Ref.next := 2; Ref.fips := true;
              Ref.heap := [(1, Ref.OPkeyCtx EVP_PKEY_ED25519)] |}
           {| Ref.next := 2; Ref.fips := true;
              Ref.heap := [(1, Ref.OPkeyCtx EVP_PKEY_ED25519)] |}
           0 0).
  - reflexivity.
  - reflexivity.
  - reflexivity.
  - lia.
Defined.



(** The empty plaintext encrypts to 16 bytes, which decryption refuses with
    its argument error. *)
Lemma aes_gcm_empty_plaintext_rejected_witness :
  exists ct,
    fst (Laes_gcm_encrypt Ref.ssl EVP_aes_128_gcm 16
           [LString key16; LString iv12; LString []] (Ref.boot false))
    = Returns [LString ct]
    /\ length ct = 16%nat
    /\ Laes_gcm_decrypt Ref.ssl EVP_aes_128_gcm 16
         [LString key16; LString iv12; LString ct] (Ref.boot false)
       = (Raises (luaL_argerror 3
                    "ciphertext must be at least 16 bytes (including tag)"),
          Ref.boot false).
Proof.
  pose (run := Laes_gcm_encrypt Ref.ssl EVP_aes_128_gcm 16
                 [LString key16; LString iv12; LString []] (Ref.boot false)).
  pose (vs := match fst run with Returns v => v | _ => [] end).
  assert (Hrun : run = (Returns vs, snd run)) by (vm_compute; reflexivity).
  destruct (aes_gcm_empty_plaintext_rejected Ref.ssl EVP_aes_128_gcm 16
              key16 iv12 (Ref.boot false) (snd run) vs ref_gcm_laws Hrun)
    as (ct & Hvs & Hlen & Hdec).
  exists ct. fold run. rewrite Hrun. cbn [fst].
  split; [rewrite Hvs; reflexivity|]. split; [exact Hlen|apply Hdec].
Defined.


(** A well-formed signature whose first integer takes 1025 bytes, parsed
    with a buffer size of 1024. *)
Lemma parse_ecdsa_signature_overrun_witness :
  Lparse_ecdsa_signature Ref.ssl LUAL_BUFFERSIZE [LString oversized_der]
    (Ref.boot false)
  = (Undefined buffer_overrun, Ref.boot false).
Proof.
  apply (parse_ecdsa_signature_overrun Ref.ssl LUAL_BUFFERSIZE oversized_der
           (2 ^ 8192) 1 (Ref.boot false)).
  - vm_compute. reflexivity.
  - left. apply Nat.ltb_lt. vm_compute. reflexivity.
Defined.



(** ** Runs on the reference library *)

Example roundtrip_1_byte : run_roundtrip [x41] = Returns [LString [x41]].
Proof. vm_compute. reflexivity. Qed.

Example roundtrip_1024_bytes :
  run_roundtrip (repeat x41 1024) = Returns [LString (repeat x41 1024)].
Proof. vm_compute. reflexivity. Qed.

Example roundtrip_0_bytes :
  run_roundtrip []
  = Raises (luaL_argerror 3 "ciphertext must be at least 16 bytes (including tag)").
Proof. vm_compute. reflexivity. Qed.

Example verify_valid : run_signature (fun sig => sig) = Returns [LBoolean true].
Proof. vm_compute. reflexivity. Qed.

Example verify_invalid :
  run_signature (map (fun b => byte_of_Z (Z.lxor (Z_of_byte b) 1)))
  = Returns [LBoolean false].
Proof. vm_compute. reflexivity. Qed.

Example verify_error : run_signature (fun sig => tl sig) = Returns [LNil].
Proof. vm_compute. reflexivity. Qed.

(** SEQUENCE { INTEGER 255, INTEGER 1 }: 255 takes a leading zero byte in DER. *)
Example parse_strips_leading_zero :
  fst (call Ref.ssl LUAL_BUFFERSIZE "parse_ecdsa_signature"
         [LString [x30; x07; x02; x02; x00; xff; x02; x01; x01]] (Ref.boot false))
  = Returns [LString [xff]; LString [x01]].
Proof. vm_compute. reflexivity. Qed.

Example build_restores_leading_zero :
  fst (call Ref.ssl LUAL_BUFFERSIZE "build_ecdsa_signature"
         [LString [xff]; LString [x01]] (Ref.boot false))
  = Returns [LString [x30; x07; x02; x02; x00; xff; x02; x01; x01]].
Proof. vm_compute. reflexivity. Qed.

Example oversized_der_is_well_formed :
  Ref.d2i oversized_der = Some (2 ^ 8192, 1)
  /\ BN_num_bytes (2 ^ 8192) = 1025%nat.
Proof. vm_compute. repeat split. Qed.

(** The round trip of the codec on a signature with leading zero bytes. *)
Example roundtrip_with_leading_zero :
  let der := [x30; x08; x02; x02; x00; xff; x02; x02; x00; x80] in
  let st := Ref.boot false in
  Lparse_ecdsa_signature Ref.ssl LUAL_BUFFERSIZE [LString der] st
  = (Returns [LString [xff]; LString [x80]], st)
  /\ Lbuild_ecdsa_signature Ref.ssl LUAL_BUFFERSIZE [LString [xff]; LString [x80]] st
     = (Returns [LString der], st).
Proof.
  cbv zeta.
  destruct (ecdsa_roundtrip_within_buffer Ref.ssl LUAL_BUFFERSIZE
              [x30; x08; x02; x02; x00; xff; x02; x02; x00; x80]
              [x30; x08; x02; x02; x00; xff; x02; x02; x00; x80]
              255 128 (Ref.boot false))
    as (Hparse & _ & _ & _ & _ & Hbuild & _);
    try (vm_compute; reflexivity); try (vm_compute; lia).
  split; [exact Hparse|exact Hbuild].
Qed.

(** * Further properties of the glue code *)

Section KeyHandles.

Context {W : Type} (ssl : OpenSSL W) (LUAL_BUFFERSIZE : nat).

(** [pkey_from_arg] on a key object, for every combination of its two
    requests. *)
Lemma pkey_from_arg_key (k : pkey_ud) (rest : list lua_value)
    (type require_private : Z) (st : machine W) :
  pkey_from_arg (LKey k :: rest) 1 type require_private st
  = if negb (type =? 0) && negb (algorithm k =? type)
    then (Raises (TypeMismatch 1), st)
    else if negb (require_private =? 0) && negb (has_private_material k)
         then (Raises (CapabilityMismatch 1), st)
         else (Returns (ud_pkey k), st).
Proof.
  destruct (Z.eqb_spec type 0) as [->|Ht]; cbn [negb andb].
  - unfold pkey_from_arg, has_private_material, bind, luaL_checkudata, ret, raise,
      CapabilityMismatch.
    cbn [lua_arg nth_error Z.eqb negb orb].
    destruct (require_private =? 0); cbn [negb andb]; [reflexivity|].
    destruct (lua_toboolean (lua_getfield (ud_uservalue k) "private") =? 1);
      reflexivity.
  - apply pkey_from_arg_spec. exact Ht.
Qed.

Lemma pkey_from_arg_not_key (args : list lua_value) (idx : nat)
    (type require_private : Z) (st : machine W) :
  (forall k, lua_arg args idx <> Some (LKey k)) ->
  pkey_from_arg args idx type require_private st
  = (Raises (luaL_typeerror idx PKEY_MT_TAG), st).
Proof.
  intros Hk. unfold pkey_from_arg, luaL_checkudata, bind.
  destruct (lua_arg args idx) as [[| | |k]|]; try reflexivity.
  exfalso. apply (Hk k). reflexivity.
Qed.

Lemma key_cases (name : string) (type : Z) :
  In (name, type) key_operations ->
  type <> 0
  /\ ((exists key_type md,
         call ssl LUAL_BUFFERSIZE name = base_evp_sign ssl LUAL_BUFFERSIZE key_type md
         /\ expected_type key_type = type)
      \/ (exists key_type md,
            call ssl LUAL_BUFFERSIZE name = base_evp_verify ssl key_type md
            /\ expected_type key_type = type)).
Proof.
  unfold key_operations. rewrite in_app_iff. intros [H|H].
  - destruct (sign_cases ssl LUAL_BUFFERSIZE name type H) as (kt & md & Hc & Ht & Hnz & _).
    split; [exact Hnz|]. left. exists kt, md. split; assumption.
  - destruct (verify_cases ssl LUAL_BUFFERSIZE name type H) as (kt & md & Hc & Ht & Hnz & _).
    split; [exact Hnz|]. right. exists kt, md. split; assumption.
Qed.

(** What a key operation does with its first argument: the outcome of
    [pkey_from_arg] decides whether anything else happens. *)
Lemma key_operation_refused (name : string) (type : Z) (args : list lua_value)
    (e : lua_error) (st : machine W) :
  In (name, type) key_operations ->
  (forall rp, pkey_from_arg args 1 type rp st = (Raises e, st)) ->
  call ssl LUAL_BUFFERSIZE name args st = (Raises e, st).
Proof.
  intros Hin Hraise.
  destruct (key_cases name type Hin) as (_ & [(kt & md & -> & Ht) | (kt & md & -> & Ht)]).
  - unfold base_evp_sign. rewrite bind_unfold. fold (expected_type kt).
    rewrite Ht, Hraise. reflexivity.
  - unfold base_evp_verify. rewrite bind_unfold. fold (expected_type kt).
    rewrite Ht, Hraise. reflexivity.
Qed.

Lemma key_operation_wrong_type (name : string) (type : Z) (k : pkey_ud)
    (rest : list lua_value) (st : machine W) :
  In (name, type) key_operations ->
  algorithm k <> type ->
  call ssl LUAL_BUFFERSIZE name (LKey k :: rest) st = (Raises (TypeMismatch 1), st).
Proof.
  intros Hin Hne.
  apply (key_operation_refused name type); [exact Hin|].
  intros rp. rewrite pkey_from_arg_key.
  destruct (key_cases name type Hin) as (Hnz & _).
  destruct (Z.eqb_spec type 0); [contradiction|].
  destruct (Z.eqb_spec (algorithm k) type); [contradiction|]. reflexivity.
Qed.

(** Property X1.  Reading back what [push_pkey] made.  [pkey_from_arg]
    applied to a fresh key object returns the wrapped pointer unless it is
    asked for a key type other than the one the object was made with (the
    "unexpected key type" error, checked first) or for private material the
    object was made without (the "private key expected" error).  A request
    for type 0 checks no type; an object made with type 0 satisfies no
    request for a type. *)
Theorem push_pkey_read_back (pkey : ptr) (type privkey : Z)
    (rest : list lua_value) (want_type require_private : Z) (st : machine W) :
  pkey_from_arg (push_pkey pkey type privkey :: rest) 1 want_type require_private st
  = if negb (want_type =? 0) && negb (type =? want_type)
    then (Raises (TypeMismatch 1), st)
    else if negb (require_private =? 0) && (privkey =? 0)
         then (Raises (CapabilityMismatch 1), st)
         else (Returns pkey, st).
Proof.
  destruct (push_pkey_attributes pkey type privkey) as (k & -> & Hp & Ha & Hpriv).
  rewrite pkey_from_arg_key, Hp, Ha, Hpriv, negb_involutive. reflexivity.
Qed.

(** Property X2.  Each of the eight signing and verification operations
    called without a key object in first position (a missing argument, nil,
    a boolean or a string) raises the type error of [luaL_checkudata] for
    argument 1, and the machine is unchanged: no library call was made. *)
Theorem key_argument_required (name : string) (type : Z)
    (args : list lua_value) (st : machine W) :
  In (name, type) key_operations ->
  (forall k, lua_arg args 1 <> Some (LKey k)) ->
  call ssl LUAL_BUFFERSIZE name args st
  = (Raises (luaL_typeerror 1 PKEY_MT_TAG), st).
Proof.
  intros Hin Hk.
  apply (key_operation_refused name type); [exact Hin|].
  intros rp. apply pkey_from_arg_not_key. exact Hk.
Qed.

(** The import functions, step by step: a BIO is allocated, the argument is
    written to it, one key is read from it; a [NULL] result gives [nil], any
    other a key object wrapping it, tagged with the key's [EVP_PKEY_id] as
    the library reports it after the read. *)
Lemma Limport_private_pem_run (pem : bytes) (rest : list lua_value)
    (st : machine W) :
  exists bio n pkey w,
    Limport_private_pem ssl (LString pem :: rest) st
    = (Returns [if pkey =? NULL then LNil
                else push_pkey pkey (EVP_PKEY_id ssl pkey w) 1],
       {| world := w;
          calls := calls st ++ [call_BIO_new_mem bio; call_BIO_write bio pem n;
                                call_PEM_read_bio_PrivateKey bio pkey] |}).
Proof.
  unfold Limport_private_pem. glue_unfold.
  destruct (BIO_new_mem ssl (world st)) as [bio w1]. glue_simpl.
  destruct (BIO_write ssl bio pem w1) as [n w2]. glue_simpl.
  destruct (PEM_read_bio_PrivateKey ssl bio w2) as [pkey w3]. glue_simpl.
  exists bio, n, pkey, w3.
  destruct (pkey =? NULL); cbn [negb]; glue_simpl; rewrite <- !app_assoc; reflexivity.
Qed.

Lemma Limport_public_pem_run (pem : bytes) (rest : list lua_value)
    (st : machine W) :
  exists bio n pkey w,
    Limport_public_pem ssl (LString pem :: rest) st
    = (Returns [if pkey =? NULL then LNil
                else push_pkey pkey (EVP_PKEY_id ssl pkey w) 0],
       {| world := w;
          calls := calls st ++ [call_BIO_new_mem bio; call_BIO_write bio pem n;
                                call_PEM_read_bio_PUBKEY bio pkey] |}).
Proof.
  unfold Limport_public_pem. glue_unfold.
  destruct (BIO_new_mem ssl (world st)) as [bio w1]. glue_simpl.
  destruct (BIO_write ssl bio pem w1) as [n w2]. glue_simpl.
  destruct (PEM_read_bio_PUBKEY ssl bio w2) as [pkey w3]. glue_simpl.
  exists bio, n, pkey, w3.
  destruct (pkey =? NULL); cbn [negb]; glue_simpl; rewrite <- !app_assoc; reflexivity.
Qed.

Lemma Limport_needs_string (args vs : list lua_value) (st st' : machine W) :
  Limport_private_pem ssl args st = (Returns vs, st')
  \/ Limport_public_pem ssl args st = (Returns vs, st') ->
  exists pem rest, args = LString pem :: rest.
Proof.
  unfold Limport_private_pem, Limport_public_pem, luaL_checklstring.
  destruct args as [|[| |pem|] rest]; glue_unfold;
    destruct (BIO_new_mem ssl (world st)) as [bio w1]; glue_simpl;
    try (intros [H|H]; discriminate).
  intros _. exists pem, rest. reflexivity.
Qed.

(** A key object that came out of an import: what it wraps, how it is
    tagged, and where the pointer came from. *)
Lemma Limport_private_pem_key (args : list lua_value) (k : pkey_ud)
    (st st' : machine W) :
  Limport_private_pem ssl args st = (Returns [LKey k], st') ->
  algorithm k = EVP_PKEY_id ssl (ud_pkey k) (world st')
  /\ has_private_material k = true
  /\ ud_pkey k <> NULL
  /\ exists bio, In (call_PEM_read_bio_PrivateKey bio (ud_pkey k)) (since st st').
Proof.
  intros Hrun.
  destruct (Limport_needs_string args [LKey k] st st' (or_introl Hrun))
    as (pem & rest & ->).
  destruct (Limport_private_pem_run pem rest st) as (bio & n & pkey & w & Hstep).
  rewrite Hstep in Hrun. injection Hrun as Hv <-.
  destruct (Z.eqb_spec pkey NULL) as [|Hnn]; [discriminate|].
  destruct (push_pkey_attributes pkey (EVP_PKEY_id ssl pkey w) 1)
    as (k' & Hk' & Hp & Ha & Hpriv).
  rewrite Hk' in Hv. injection Hv as ->.
  cbn [world]. rewrite Hp.
  split; [exact Ha|]. split; [exact Hpriv|]. split; [exact Hnn|].
  exists bio. rewrite since_calls. simpl. tauto.
Qed.

Lemma Limport_public_pem_key (args : list lua_value) (k : pkey_ud)
    (st st' : machine W) :
  Limport_public_pem ssl args st = (Returns [LKey k], st') ->
  algorithm k = EVP_PKEY_id ssl (ud_pkey k) (world st')
  /\ has_private_material k = false
  /\ ud_pkey k <> NULL
  /\ exists bio, In (call_PEM_read_bio_PUBKEY bio (ud_pkey k)) (since st st').
Proof.
  intros Hrun.
  destruct (Limport_needs_string args [LKey k] st st' (or_intror Hrun))
    as (pem & rest & ->).
  destruct (Limport_public_pem_run pem rest st) as (bio & n & pkey & w & Hstep).
  rewrite Hstep in Hrun. injection Hrun as Hv <-.
  destruct (Z.eqb_spec pkey NULL) as [|Hnn]; [discriminate|].
  destruct (push_pkey_attributes pkey (EVP_PKEY_id ssl pkey w) 0)
    as (k' & Hk' & Hp & Ha & Hpriv).
  rewrite Hk' in Hv. injection Hv as ->.
  cbn [world]. rewrite Hp.
  split; [exact Ha|]. split; [exact Hpriv|]. split; [exact Hnn|].
  exists bio. rewrite since_calls. simpl. tauto.
Qed.

(** Property X3.  The import functions look at their argument only after
    the memory BIO exists.  Called with anything but a string, both raise
    the type error for argument 1; by then [BIO_new] has been called once,
    and nothing was written to the BIO or read from it. *)
Theorem import_requires_string (args : list lua_value) (st : machine W) :
  lua_tolstring args 1 = None ->
  exists bio w,
    let st' := {| world := w; calls := calls st ++ [call_BIO_new_mem bio] |} in
    Limport_private_pem ssl args st = (Raises (luaL_typeerror 1 "string"), st')
    /\ Limport_public_pem ssl args st = (Raises (luaL_typeerror 1 "string"), st').
Proof.
  intros Hnone. unfold lua_tolstring in Hnone.
  unfold Limport_private_pem, Limport_public_pem, luaL_checklstring.
  destruct (lua_arg args 1) as [[| |pem|]|]; try discriminate; glue_unfold;
    destruct (BIO_new_mem ssl (world st)) as [bio w1]; glue_simpl;
    exists bio, w1; split; reflexivity.
Qed.

(** Property X4.  A key read from PEM whose native type is RSASSA-PSS
    ([EVP_PKEY_id] is [NID_rsassaPss]) is tagged with that type, and no
    operation asks for it: all eight signing and verification operations,
    the two RSASSA-PSS ones included, refuse the key object with the
    "unexpected key type" error before any library call. *)
Theorem imported_rsa_pss_key_refused (args : list lua_value) (k : pkey_ud)
    (st st' : machine W) :
  Limport_private_pem ssl args st = (Returns [LKey k], st')
  \/ Limport_public_pem ssl args st = (Returns [LKey k], st') ->
  EVP_PKEY_id ssl (ud_pkey k) (world st') = NID_rsassaPss ->
  forall name type rest st2,
    In (name, type) key_operations ->
    call ssl LUAL_BUFFERSIZE name (LKey k :: rest) st2
    = (Raises (TypeMismatch 1), st2).
Proof.
  intros Hrun Hid name type rest st2 Hin.
  assert (Halg : algorithm k = NID_rsassaPss).
  { destruct Hrun as [Hrun|Hrun].
    - destruct (Limport_private_pem_key args k st st' Hrun) as (Ha & _). congruence.
    - destruct (Limport_public_pem_key args k st st' Hrun) as (Ha & _). congruence. }
  apply (key_operation_wrong_type name type); [exact Hin|].
  rewrite Halg. unfold key_operations, sign_operations, verify_operations in Hin.
  simpl in Hin.
  repeat (destruct Hin as [Hin|Hin]; [injection Hin as _ <-; discriminate|]).
  destruct Hin.
Qed.

(** Property X5.  What [import_public_pem] returns cannot sign: whatever
    the PEM text, every signing operation called on the returned value
    raises an error and makes no library call.  The error is the one of a
    missing key object when the import returned [nil], and for a key object
    the key type error or the private key error.  The verification
    operation of the key's algorithm does take the object: it returns one
    value. *)
Theorem imported_public_key_cannot_sign (args : list lua_value) (v : lua_value)
    (st st' : machine W) :
  Limport_public_pem ssl args st = (Returns [v], st') ->
  (forall name type rest st2,
      In (name, type) sign_operations ->
      exists e,
        call ssl LUAL_BUFFERSIZE name (v :: rest) st2 = (Raises e, st2)
        /\ (e = luaL_typeerror 1 PKEY_MT_TAG
            \/ e = TypeMismatch 1 \/ e = CapabilityMismatch 1))
  /\ (forall k name msg sig st2,
         v = LKey k ->
         In (name, algorithm k) verify_operations ->
         exists x,
           fst (call ssl LUAL_BUFFERSIZE name [v; LString msg; LString sig] st2)
           = Returns [x]).
Proof.
  intros Hrun. split.
  - intros name type rest st2 Hin.
    destruct (Limport_pem_returns ssl args [v] st st') as [Hpub _].
    destruct (Hpub Hrun) as [Hnil | (k & Hk & _ & Hpriv)].
    + injection Hnil as ->. exists (luaL_typeerror 1 PKEY_MT_TAG).
      split; [|auto].
      apply (key_operation_refused name type).
      * unfold key_operations. apply in_or_app. left. exact Hin.
      * intros rp. apply pkey_from_arg_not_key. intros k. discriminate.
    + injection Hk as ->.
      destruct (sign_cases ssl LUAL_BUFFERSIZE name type Hin)
        as (kt & md & -> & Ht & Hnz & _).
      unfold base_evp_sign. rewrite bind_unfold. fold (expected_type kt).
      rewrite Ht, pkey_from_arg_key, Hpriv.
      destruct (Z.eqb_spec type 0); [contradiction|]. cbn [negb andb].
      destruct (algorithm k =? type); cbn [negb Z.eqb andb].
      * exists (CapabilityMismatch 1). split; [reflexivity|auto].
      * exists (TypeMismatch 1). split; [reflexivity|auto].
  - intros k name msg sig st2 -> Hin.
    destruct (verify_cases ssl LUAL_BUFFERSIZE name (algorithm k) Hin)
      as (kt & md & -> & Ht & Hnz & _).
    rewrite <- Ht in Hnz.
    destruct (base_evp_verify_run ssl kt md k msg sig st2 Hnz (eq_sym Ht))
      as (ctx & r0 & w & [[_ ->] | [_ (wp & rp & x & ->)]]); cbn [fst]; eauto.
Qed.

(** Property X6.  A key object returned by [import_private_pem] wraps the
    pointer [PEM_read_bio_PrivateKey] returned, which is not [NULL], and the
    signing operation
    that expects the key's [EVP_PKEY_id] accepts it: that operation creates
    a digest context and calls [EVP_DigestSignInit] on it with exactly the
    imported pointer. *)
Theorem imported_private_key_signs (args : list lua_value) (k : pkey_ud)
    (st st' : machine W) (name : string) :
  Limport_private_pem ssl args st = (Returns [LKey k], st') ->
  In (name, EVP_PKEY_id ssl (ud_pkey k) (world st')) sign_operations ->
  ud_pkey k <> NULL
  /\ (exists bio, In (call_PEM_read_bio_PrivateKey bio (ud_pkey k)) (since st st'))
  /\ forall rest st2,
       exists ctx md r0 post,
         since st2 (snd (call ssl LUAL_BUFFERSIZE name (LKey k :: rest) st2))
         = call_EVP_MD_CTX_new ctx
           :: call_EVP_DigestSignInit ctx md (ud_pkey k) r0 :: post.
Proof.
  intros Hrun Hin.
  destruct (Limport_private_pem_key args k st st' Hrun) as (Ha & Hpriv & Hnn & Hbio).
  split; [exact Hnn|]. split; [exact Hbio|]. intros rest st2.
  rewrite <- Ha in Hin.
  destruct (sign_cases ssl LUAL_BUFFERSIZE name (algorithm k) Hin)
    as (kt & md & -> & Ht & Hnz & _).
  rewrite <- Ht in Hnz.
  destruct (base_evp_sign_log ssl LUAL_BUFFERSIZE kt md k rest st2 Hnz (eq_sym Ht) Hpriv)
    as (ctx & r0 & post & Hlog & _).
  exists ctx, md, r0, post. exact Hlog.
Qed.

(** Property X7.  [generate_ed25519_keypair] always returns one key object:
    it wraps the pointer [EVP_PKEY_keygen] left behind, and it is an
    Ed25519 key with private material.  [ed25519_sign] hands this pointer to
    [EVP_DigestSignInit]; the six operations for RSA and ECDSA refuse the
    object with the "unexpected key type" error. *)
Theorem generated_key_is_ed25519_only (args : list lua_value) (st : machine W) :
  exists k st',
    Lgenerate_ed25519_keypair ssl args st = (Returns [LKey k], st')
    /\ (exists pctx r, In (call_EVP_PKEY_keygen pctx r (ud_pkey k)) (since st st'))
    /\ (forall rest st2,
           exists ctx r0 post,
             since st2 (snd (call ssl LUAL_BUFFERSIZE "ed25519_sign" (LKey k :: rest) st2))
             = call_EVP_MD_CTX_new ctx
               :: call_EVP_DigestSignInit ctx None (ud_pkey k) r0 :: post)
    /\ (forall name type rest st2,
           In (name, type) key_operations -> type <> NID_ED25519 ->
           call ssl LUAL_BUFFERSIZE name (LKey k :: rest) st2
           = (Raises (TypeMismatch 1), st2)).
Proof.
  destruct (Lgenerate_ed25519_keypair_run ssl args st)
    as (pctx & r0 & r & pkey & w & Hrun).
  destruct (push_pkey_attributes pkey NID_ED25519 1) as (k & Hk & Hp & Ha & Hpriv).
  rewrite Hk in Hrun. eexists k, _. split; [exact Hrun|].
  rewrite since_calls. split; [|split].
  - exists pctx, r. rewrite Hp. simpl. tauto.
  - intros rest st2.
    change (call ssl LUAL_BUFFERSIZE "ed25519_sign")
      with (base_evp_sign ssl LUAL_BUFFERSIZE NID_ED25519 None).
    destruct (base_evp_sign_log ssl LUAL_BUFFERSIZE NID_ED25519 None k rest st2)
      as (ctx & r1 & post & Hlog & _); [discriminate|exact Ha|exact Hpriv|].
    exists ctx, r1, post. exact Hlog.
  - intros name type rest st2 Hin Hne.
    apply (key_operation_wrong_type name type); [exact Hin|]. congruence.
Qed.

End KeyHandles.

Section Signatures.

Context {W : Type} (ssl : OpenSSL W) (LUAL_BUFFERSIZE : nat).

Lemma pkey_from_arg_outcome (args : list lua_value) (idx : nat)
    (type require_private : Z) (st : machine W) :
  (exists pkey, pkey_from_arg args idx type require_private st = (Returns pkey, st))
  \/ (exists e, pkey_from_arg args idx type require_private st = (Raises e, st)).
Proof.
  unfold pkey_from_arg, luaL_checkudata.
  destruct (lua_arg args idx) as [[| | |k]|]; glue_unfold; eauto.
  destruct (negb (type =? 0) || negb (require_private =? 0)); [|eauto].
  destruct (negb (type =? 0)).
  - destruct (negb (lua_tointeger (lua_getfield (ud_uservalue k) "type") =? type));
      [eauto|].
    destruct (negb (require_private =? 0)); [|eauto].
    destruct (negb (lua_toboolean (lua_getfield (ud_uservalue k) "private") =? 1));
      eauto.
  - destruct (negb (require_private =? 0)); [|eauto].
    destruct (negb (lua_toboolean (lua_getfield (ud_uservalue k) "private") =? 1));
      eauto.
Qed.

Lemma store_at_start (b : buffer) (d : bytes) :
  store b 0 d
  = if (length d <=? length b)%nat
    then Some (map Some d ++ skipn (length d) b)
    else None.
Proof. unfold store. cbn [Nat.add firstn app]. reflexivity. Qed.

Lemma padding_calls_select (key_type : Z) (pctx : ptr) (rp : Z) :
  forallb selects_rsa_padding (padding_calls key_type pctx rp) = true.
Proof. unfold padding_calls. destruct (key_type =? NID_rsassaPss); reflexivity. Qed.

Ltac sign_log_done :=
  cbn [fst snd]; rewrite ?pushresultsize_state; rewrite <- ?app_assoc;
  rewrite since_calls; cbn [app]; auto.

(** Every path through [base_evp_sign], by what the library answered. *)
Lemma base_evp_sign_paths (key_type : Z) (md : option EVP_MD)
    (args : list lua_value) (st : machine W) :
  let r := base_evp_sign ssl LUAL_BUFFERSIZE key_type md args st in
  let log := since st (snd r) in
  (exists e, pkey_from_arg args 1 (expected_type key_type) 1 st = (Raises e, st)
             /\ r = (Raises e, st))
  \/ exists pkey ctx r0,
       pkey_from_arg args 1 (expected_type key_type) 1 st = (Returns pkey, st)
       /\ ((r0 <> 1 /\ fst r = Returns [LNil]
            /\ log = [call_EVP_MD_CTX_new ctx;
                      call_EVP_DigestSignInit ctx md pkey r0])
           \/ (r0 = 1 /\ exists wp rp,
               let pre := call_EVP_MD_CTX_new ctx
                          :: call_EVP_DigestSignInit ctx md pkey 1
                          :: padding_calls key_type (EVP_MD_CTX_pkey_ctx ssl ctx wp) rp in
               (lua_tolstring args 2 = None /\ fst r = Undefined null_string
                /\ log = pre)
               \/ exists msg r1 n,
                    lua_tolstring args 2 = Some msg
                    /\ ((r1 <> 1 /\ fst r = Returns [LNil]
                         /\ log = pre ++ [call_EVP_DigestSign_size ctx msg r1 n])
                        \/ (r1 = 1 /\ (LUAL_BUFFERSIZE < n)%nat
                            /\ fst r = Undefined buffer_overrun
                            /\ log = pre ++ [call_EVP_DigestSign_size ctx msg 1 n])
                        \/ (r1 = 1 /\ (n <= LUAL_BUFFERSIZE)%nat
                            /\ exists r2 sig,
                                 log = pre ++ [call_EVP_DigestSign_size ctx msg 1 n;
                                               call_EVP_DigestSign ctx n msg r2 sig]
                                 /\ (((LUAL_BUFFERSIZE < length sig)%nat
                                      /\ fst r = Undefined buffer_overrun)
                                     \/ ((length sig <= LUAL_BUFFERSIZE)%nat
                                         /\ r2 <> 1 /\ fst r = Returns [LNil])
                                     \/ ((length sig <= LUAL_BUFFERSIZE)%nat
                                         /\ r2 = 1
                                         /\ fst r = Returns [LString sig])))))).
Proof.
  cbv zeta. unfold base_evp_sign. rewrite bind_unfold. fold (expected_type key_type).
  destruct (pkey_from_arg_outcome args 1 (expected_type key_type) 1 st)
    as [[pkey Hpk] | [e Hpk]]; rewrite Hpk; [|left; exists e; split; reflexivity].
  right. glue_unfold.
  destruct (EVP_MD_CTX_new ssl (world st)) as [ctx w1]. glue_simpl.
  destruct (EVP_DigestSignInit ssl ctx md pkey w1) as [r0 w2]. glue_simpl.
  exists pkey, ctx, r0. split; [reflexivity|].
  destruct (Z.eqb_spec r0 1) as [->|Hr0]; cbn [negb].
  2: { left. cbn [fst snd]. rewrite <- app_assoc, since_calls. auto. }
  right. split; [reflexivity|].
  unfold padding_calls.
  destruct (key_type =? NID_rsassaPss); glue_simpl;
    [destruct (EVP_PKEY_CTX_set_rsa_padding ssl (EVP_MD_CTX_pkey_ctx ssl ctx w2)
                 RSA_PKCS1_PSS_PADDING w2) as [rp w3]; glue_simpl; exists w2, rp
    |exists w2, 0].
  all: cbn [app].
  all: destruct (lua_tolstring args 2) as [msg|]; glue_simpl;
    [right; exists msg|left; sign_log_done].
  all: match goal with
       | |- context [EVP_DigestSign_size ?s ?c ?m ?w] =>
           destruct (EVP_DigestSign_size s c m w) as [[r1 n] w4]; glue_simpl
       end.
  all: exists r1, n; split; [reflexivity|].
  all: destruct (Z.eqb_spec r1 1) as [->|Hr1]; cbn [negb]; glue_simpl;
    [|left; sign_log_done].
  all: right; rewrite store_at_start.
  all: unfold luaL_prepbuffer, luaL_prepbuffsize; rewrite !repeat_length.
  all: destruct (Nat.leb_spec n LUAL_BUFFERSIZE) as [Hn|Hn]; glue_simpl;
    [right; split; [reflexivity|]; split; [exact Hn|]
    |left; split; [reflexivity|]; split; [exact Hn|]; sign_log_done].
  all: match goal with
       | |- context [EVP_DigestSign ?s ?c ?k ?m ?w] =>
           destruct (EVP_DigestSign s c k m w) as [[r2 sig] w5]; glue_simpl
       end.
  all: exists r2, sig; rewrite store_at_start.
  all: rewrite length_app, length_map, repeat_length, length_skipn, repeat_length.
  all: replace (n + (LUAL_BUFFERSIZE - n))%nat with LUAL_BUFFERSIZE by lia.
  all: destruct (Nat.leb_spec (length sig) LUAL_BUFFERSIZE) as [Hs|Hs]; glue_simpl;
    [|split; [sign_log_done|left; split; [exact Hs|reflexivity]]].
  all: destruct (Z.eqb_spec r2 1) as [->|Hr2]; cbn [negb]; glue_simpl;
    [rewrite pushresultsize_filled; split; [sign_log_done|]; right; right; auto
    |split; [sign_log_done|]; right; left; auto].
Qed.


(** Property X9.  The signature buffer is the fixed region
    [luaL_prepbuffer] hands out, whatever size the library announces: when
    the size query of [EVP_DigestSign] succeeds and announces more than
    [LUAL_BUFFERSIZE] bytes, the [memset] over the announced size writes
    past the end of the region and the call has no defined result. *)
Theorem sign_overruns_small_buffer (name : string) (type : Z)
    (args : list lua_value) (st : machine W) (ctx : ptr) (msg : bytes) (n : nat) :
  In (name, type) sign_operations ->
  let r := call ssl LUAL_BUFFERSIZE name args st in
  In (call_EVP_DigestSign_size ctx msg 1 n) (since st (snd r)) ->
  (LUAL_BUFFERSIZE < n)%nat ->
  fst r = Undefined buffer_overrun.
Proof.
  intros Hin. cbv zeta.
  destruct (sign_cases ssl LUAL_BUFFERSIZE name type Hin) as (kt & md & -> & _).
  pose proof (base_evp_sign_paths kt md args st) as Hp. cbv zeta in Hp.
  unfold padding_calls in Hp.
  intros Hlog Hbig.
  destruct Hp as [(e & _ & He) | (pkey & ctx' & r0 & _ & Hp)].
  { rewrite He in Hlog. cbn [snd] in Hlog. rewrite since_refl in Hlog. destruct Hlog. }
  destruct Hp as [(_ & _ & Hl) | (-> & wp & rp & Hp)].
  { rewrite Hl in Hlog. in_log. }
  destruct Hp as [(_ & _ & Hl) | (msg' & r1 & n' & _ & Hp)].
  { rewrite Hl in Hlog. destruct (kt =? NID_rsassaPss); in_log. }
  destruct Hp as [(Hr1 & _ & Hl) | [(_ & _ & Hv & _) | (_ & Hn & r2 & sig & Hl & _)]].
  - rewrite Hl in Hlog. destruct (kt =? NID_rsassaPss); cbn [app] in Hlog;
      in_log; congruence.
  - exact Hv.
  - rewrite Hl in Hlog. destruct (kt =? NID_rsassaPss); cbn [app] in Hlog;
      in_log; lia.
Qed.

(** Property X10.  The message argument is checked by verification only.
    Given a key object that passes the key check and a second argument that
    is no string, a verification operation raises the type error for
    argument 2 with the machine unchanged.  The signing operation for the
    same key raises no error: it goes on to create a digest context and to
    call [EVP_DigestSignInit] with the key. *)
Theorem message_checked_by_verify_only (sname vname : string) (type : Z)
    (k : pkey_ud) (rest : list lua_value) (st : machine W) :
  In (sname, type) sign_operations ->
  In (vname, type) verify_operations ->
  algorithm k = type ->
  has_private_material k = true ->
  lua_tolstring (LKey k :: rest) 2 = None ->
  call ssl LUAL_BUFFERSIZE vname (LKey k :: rest) st
  = (Raises (luaL_typeerror 2 "string"), st)
  /\ (forall e, fst (call ssl LUAL_BUFFERSIZE sname (LKey k :: rest) st) <> Raises e)
  /\ exists ctx md r0 post,
       since st (snd (call ssl LUAL_BUFFERSIZE sname (LKey k :: rest) st))
       = call_EVP_MD_CTX_new ctx
         :: call_EVP_DigestSignInit ctx md (ud_pkey k) r0 :: post.
Proof.
  intros Hs Hv Halg Hpriv Hmsg.
  destruct (sign_cases ssl LUAL_BUFFERSIZE sname type Hs) as (skt & smd & -> & Hst & Hnz & _).
  destruct (verify_cases ssl LUAL_BUFFERSIZE vname type Hv) as (vkt & vmd & -> & Hvt & _).
  assert (Hkey : forall rp,
    pkey_from_arg (LKey k :: rest) 1 type rp st = (Returns (ud_pkey k), st)).
  { intros rp. rewrite pkey_from_arg_spec by assumption.
    rewrite Halg, Z.eqb_refl, Hpriv. cbn [negb andb]. rewrite andb_false_r.
    reflexivity. }
  split.
  - unfold base_evp_verify. rewrite bind_unfold. fold (expected_type vkt).
    rewrite Hvt, Hkey.
    unfold lua_tolstring in Hmsg. unfold bind, luaL_checklstring.
    destruct (lua_arg (LKey k :: rest) 2) as [[| |m|]|]; try reflexivity.
    discriminate.
  - pose proof (base_evp_sign_paths skt smd (LKey k :: rest) st) as Hp.
    cbv zeta in Hp. rewrite Hst, Hkey in Hp. unfold padding_calls in Hp.
    destruct Hp as [(e' & He & _) | (pkey & ctx & r0 & Hpk & Hp)]; [discriminate|].
    injection Hpk as <-.
    destruct Hp as [(_ & Hv1 & Hl) | (-> & wp & rp & Hp)].
    { rewrite Hv1, Hl. split; [discriminate|]. eexists _, _, _, _. reflexivity. }
    destruct Hp as [(_ & Hv1 & Hl) | (msg & r1 & n & Hm & _)]; [|congruence].
    rewrite Hv1, Hl. split; [discriminate|]. eexists _, _, _, _. reflexivity.
Qed.

(** Property X11.  Verification releases the digest context it creates.
    For every key type, digest and argument list, [base_evp_verify] either
    raises an argument error before any library call, or returns one value
    after a run of library calls that starts with [EVP_MD_CTX_new], ends
    with [EVP_MD_CTX_free] of the context created, and creates or releases
    no context in between: this holds whatever the library answers,
    a failed [EVP_DigestVerifyInit] included.  Its behaviour is always
    defined. *)
Theorem verify_releases_its_context (key_type : Z) (md : option EVP_MD)
    (args : list lua_value) (st : machine W) :
  let r := base_evp_verify ssl key_type md args st in
  (exists e, r = (Raises e, st))
  \/ (exists ctx mid v,
         fst r = Returns [v]
         /\ since st (snd r)
            = call_EVP_MD_CTX_new ctx :: mid ++ [call_EVP_MD_CTX_free ctx]
         /\ existsb is_md_ctx_lifetime mid = false).
Proof.
  cbv zeta. unfold base_evp_verify. rewrite bind_unfold.
  fold (expected_type key_type).
  destruct (pkey_from_arg_outcome args 1 (expected_type key_type) 0 st)
    as [[pkey Hpk] | [e Hpk]]; rewrite Hpk; [|left; eauto].
  unfold luaL_checklstring.
  destruct (lua_arg args 2) as [[| |msg|]|];
    destruct (lua_arg args 3) as [[| |sig|]|]; glue_unfold;
    try (left; eexists; reflexivity).
  right.
  destruct (EVP_MD_CTX_new ssl (world st)) as [ctx w1]. glue_simpl.
  destruct (EVP_DigestVerifyInit ssl ctx md pkey w1) as [r0 w2]. glue_simpl.
  exists ctx.
  destruct (negb (r0 =? 1)); glue_simpl.
  { eexists [_], _. cbn [fst snd]. rewrite <- !app_assoc, since_calls.
    repeat split. }
  destruct (key_type =? NID_rsassaPss); glue_simpl;
    [destruct (EVP_PKEY_CTX_set_rsa_padding ssl (EVP_MD_CTX_pkey_ctx ssl ctx w2)
                 RSA_PKCS1_PSS_PADDING w2) as [rp w3]; glue_simpl|].
  all: match goal with
       | |- context [EVP_DigestVerify ?s ?c ?g ?m ?w] =>
           destruct (EVP_DigestVerify s c g m w) as [x w4]; glue_simpl
       end.
  all: destruct (x =? 0); [|destruct (negb (x =? 1))]; glue_simpl;
    cbn [fst snd]; rewrite <- !app_assoc, since_calls; cbn [app].
  1-3: eexists [_; _; _], _; repeat split.
  all: eexists [_; _], _; repeat split.
Qed.

Lemma pkey_from_arg_returns (args : list lua_value) (type require_private : Z)
    (pkey : ptr) (st st' : machine W) :
  pkey_from_arg args 1 type require_private st = (Returns pkey, st') ->
  exists k,
    lua_arg args 1 = Some (LKey k)
    /\ (type <> 0 -> algorithm k = type)
    /\ (require_private <> 0 -> has_private_material k = true).
Proof.
  destruct (lua_arg args 1) as [[| | |k]|] eqn:E;
    try (rewrite pkey_from_arg_not_key by (intros k; congruence); discriminate).
  assert (Hargs : exists rest, args = LKey k :: rest).
  { destruct args as [|a rest]; [discriminate|]. cbn in E. injection E as ->. eauto. }
  destruct Hargs as [rest ->].
  rewrite pkey_from_arg_key. intros Hrun. exists k. split; [reflexivity|].
  destruct (Z.eqb_spec type 0) as [->|Ht]; cbn [negb andb] in Hrun.
  - split; [contradiction|].
    destruct (Z.eqb_spec require_private 0) as [->|Hp]; cbn [negb andb] in Hrun;
      [contradiction|].
    destruct (has_private_material k); [reflexivity|discriminate].
  - destruct (Z.eqb_spec (algorithm k) type) as [Ha|]; cbn [negb] in Hrun;
      [|discriminate].
    split; [intros _; exact Ha|].
    destruct (Z.eqb_spec require_private 0) as [->|Hp]; cbn [negb andb] in Hrun;
      [contradiction|].
    destruct (has_private_material k); [reflexivity|discriminate].
Qed.

(** Property X12.  No key reaches the library unchecked.  If one of the
    eight signing and verification operations makes any library call at
    all, its first argument was a key object tagged with the algorithm the
    operation expects; for a signing operation the object has private
    material, and for a verification operation the message and the
    signature were both strings. *)
Theorem key_operations_validate_before_calling (name : string) (type : Z)
    (args : list lua_value) (st : machine W) :
  In (name, type) key_operations ->
  since st (snd (call ssl LUAL_BUFFERSIZE name args st)) <> [] ->
  exists k,
    lua_arg args 1 = Some (LKey k)
    /\ algorithm k = type
    /\ ((In (name, type) sign_operations /\ has_private_material k = true)
        \/ (In (name, type) verify_operations
            /\ lua_tolstring args 2 <> None /\ lua_tolstring args 3 <> None)).
Proof.
  unfold key_operations. rewrite in_app_iff. intros [Hin|Hin] Hlog.
  - destruct (sign_cases ssl LUAL_BUFFERSIZE name type Hin)
      as (kt & md & Hc & Ht & Hnz & _).
    rewrite Hc in Hlog.
    pose proof (base_evp_sign_paths kt md args st) as Hp. cbv zeta in Hp.
    destruct Hp as [(e & _ & He) | (pkey & _ & _ & Hpk & _)].
    { rewrite He in Hlog. cbn [snd] in Hlog. rewrite since_refl in Hlog.
      contradiction. }
    rewrite Ht in Hpk.
    destruct (pkey_from_arg_returns args type 1 pkey st st Hpk) as (k & Hk & Ha & Hpriv).
    exists k. split; [exact Hk|]. split; [exact (Ha Hnz)|].
    left. split; [exact Hin|]. apply Hpriv. discriminate.
  - destruct (verify_cases ssl LUAL_BUFFERSIZE name type Hin)
      as (kt & md & Hc & Ht & Hnz & _).
    rewrite Hc in Hlog. revert Hlog.
    unfold base_evp_verify. rewrite bind_unfold. fold (expected_type kt). rewrite Ht.
    destruct (pkey_from_arg_outcome args 1 type 0 st) as [[pkey Hpk] | [e Hpk]];
      rewrite Hpk;
      [|cbn [snd]; rewrite since_refl; contradiction].
    destruct (pkey_from_arg_returns args type 0 pkey st st Hpk) as (k & Hk & Ha & _).
    unfold lua_tolstring, luaL_checklstring.
    destruct (lua_arg args 2) as [[| |msg|]|];
      try (unfold bind, raise; cbn [snd]; rewrite since_refl; contradiction).
    destruct (lua_arg args 3) as [[| |sig|]|];
      try (unfold bind, raise, ret; cbn [snd]; rewrite since_refl; contradiction).
    intros _. exists k. split; [exact Hk|]. split; [exact (Ha Hnz)|].
    right. split; [exact Hin|]. split; discriminate.
Qed.

End Signatures.

Section Cipher.

Context {W : Type} (ssl : OpenSSL W) (LUAL_BUFFERSIZE : nat).

(** Property X13.  The argument count is checked last.  An AEAD operation
    given a key and a nonce of the right lengths (and, for decryption, more
    than 16 bytes of input) and any fourth argument raises ["Expected 3
    arguments, got %d"] with the number of arguments it was given; the
    machine is unchanged, so no context was created. *)
Theorem aead_extra_arguments_rejected (name : string) (klen : nat)
    (key iv data : bytes) (extra : lua_value) (rest : list lua_value)
    (st : machine W) :
  In (name, klen) aead_operations ->
  length key = klen -> length iv = 12%nat ->
  In name ["aes_128_gcm_encrypt"; "aes_256_gcm_encrypt"]%string
  \/ (16 < length data)%nat ->
  call ssl LUAL_BUFFERSIZE name
    (LString key :: LString iv :: LString data :: extra :: rest) st
  = (Raises (luaL_error "Expected 3 arguments, got %d"
               [Z.of_nat (4 + length rest)]), st).
Proof.
  intros Hin Hk Hiv Hdata.
  assert (Hcase :
    (exists cipher, call ssl LUAL_BUFFERSIZE name = Laes_gcm_encrypt ssl cipher klen)
    \/ ((16 < length data)%nat
        /\ exists cipher, call ssl LUAL_BUFFERSIZE name = Laes_gcm_decrypt ssl cipher klen)).
  { unfold aead_operations in Hin. simpl in Hin.
    destruct Hin as [H|[H|[H|[H|[]]]]]; injection H as <- <-.
    - left. exists EVP_aes_128_gcm. reflexivity.
    - right. split; [|exists EVP_aes_128_gcm; reflexivity].
      destruct Hdata as [[H|[H|[]]]|H]; try discriminate H. exact H.
    - left. exists EVP_aes_256_gcm. reflexivity.
    - right. split; [|exists EVP_aes_256_gcm; reflexivity].
      destruct Hdata as [[H|[H|[]]]|H]; try discriminate H. exact H. }
  destruct Hcase as [(cipher & ->) | (Hlen & cipher & ->)].
  - unfold Laes_gcm_encrypt. glue_unfold.
    rewrite Hk, Nat.eqb_refl, Hiv. reflexivity.
  - unfold Laes_gcm_decrypt. glue_unfold.
    rewrite Hk, Nat.eqb_refl, Hiv. cbn [negb Nat.eqb]. glue_simpl.
    destruct (Nat.ltb_spec 16 (length data)) as [_|]; [|lia]. reflexivity.
Qed.

(** Property X14.  The three string checks come before every other check.
    If among the first three arguments of an AEAD operation the one at
    position [i] is the first that is no string, the operation raises the
    type error for argument [i], whatever the lengths of the others and the
    number of arguments; the machine is unchanged. *)
Theorem aead_type_checks_first (name : string) (klen : nat)
    (args : list lua_value) (i : nat) (st : machine W) :
  In (name, klen) aead_operations ->
  In i [1; 2; 3]%nat ->
  lua_tolstring args i = None ->
  (forall j, (1 <= j < i)%nat -> lua_tolstring args j <> None) ->
  call ssl LUAL_BUFFERSIZE name args st
  = (Raises (luaL_typeerror i "string"), st).
Proof.
  intros Hin Hi Hnone Hbefore.
  assert (H1 : (1 < i)%nat -> exists s, lua_arg args 1 = Some (LString s)).
  { intros Hlt. specialize (Hbefore 1%nat ltac:(lia)). unfold lua_tolstring in Hbefore.
    destruct (lua_arg args 1) as [[| |s|]|]; try contradiction. eauto. }
  assert (H2 : (2 < i)%nat -> exists s, lua_arg args 2 = Some (LString s)).
  { intros Hlt. specialize (Hbefore 2%nat ltac:(lia)). unfold lua_tolstring in Hbefore.
    destruct (lua_arg args 2) as [[| |s|]|]; try contradiction. eauto. }
  assert (Hbad : forall v, lua_arg args i = Some v -> forall s, v <> LString s).
  { intros v Hv s ->. unfold lua_tolstring in Hnone. rewrite Hv in Hnone. discriminate. }
  assert (Hcheck : forall A (k : bytes -> M W A),
    bind (luaL_checklstring args i) k st = (Raises (luaL_typeerror i "string"), st)).
  { intros A k. unfold bind, luaL_checklstring.
    destruct (lua_arg args i) as [[| |s|]|] eqn:E; try reflexivity.
    exfalso. exact (Hbad _ eq_refl s eq_refl). }
  assert (Hok : forall j s A (k : bytes -> M W A),
    lua_arg args j = Some (LString s) ->
    bind (luaL_checklstring args j) k st = k s st).
  { intros j s A k E. unfold bind, luaL_checklstring. rewrite E. reflexivity. }
  destruct (aead_cases ssl LUAL_BUFFERSIZE name klen Hin) as [cipher [-> | ->]];
    [unfold Laes_gcm_encrypt|unfold Laes_gcm_decrypt];
    simpl in Hi; destruct Hi as [<-|[<-|[<-|[]]]].
  - apply Hcheck.
  - destruct (H1 ltac:(lia)) as [s1 E1]. rewrite (Hok 1%nat s1) by exact E1.
    apply Hcheck.
  - destruct (H1 ltac:(lia)) as [s1 E1]. destruct (H2 ltac:(lia)) as [s2 E2].
    rewrite (Hok 1%nat s1) by exact E1. rewrite (Hok 2%nat s2) by exact E2.
    apply Hcheck.
  - apply Hcheck.
  - destruct (H1 ltac:(lia)) as [s1 E1]. rewrite (Hok 1%nat s1) by exact E1.
    apply Hcheck.
  - destruct (H1 ltac:(lia)) as [s1 E1]. destruct (H2 ltac:(lia)) as [s2 E2].
    rewrite (Hok 1%nat s1) by exact E1. rewrite (Hok 2%nat s2) by exact E2.
    apply Hcheck.
Qed.







(** Property X16.  No cipher context is touched before the arguments are
    validated.  If one of the four AEAD operations makes any library call
    at all, it was given exactly three arguments, all strings: a key of the
    variant's length, a 12-byte nonce and, for decryption, an input of more
    than 16 bytes. *)
Theorem aead_validates_before_calling (name : string) (klen : nat)
    (args : list lua_value) (st : machine W) :
  In (name, klen) aead_operations ->
  since st (snd (call ssl LUAL_BUFFERSIZE name args st)) <> [] ->
  exists key iv data,
    args = [LString key; LString iv; LString data]
    /\ length key = klen /\ length iv = 12%nat
    /\ (In name ["aes_128_gcm_decrypt"; "aes_256_gcm_decrypt"]%string ->
        (16 < length data)%nat).
Proof.
  intros Hin.
  assert (Hcase :
    (~ In name ["aes_128_gcm_decrypt"; "aes_256_gcm_decrypt"]%string
     /\ exists cipher, call ssl LUAL_BUFFERSIZE name = Laes_gcm_encrypt ssl cipher klen)
    \/ (exists cipher, call ssl LUAL_BUFFERSIZE name = Laes_gcm_decrypt ssl cipher klen)).
  { unfold aead_operations in Hin. simpl in Hin.
    destruct Hin as [H|[H|[H|[H|[]]]]]; injection H as <- <-.
    - left. split; [simpl; intros [H|[H|[]]]; discriminate|].
      exists EVP_aes_128_gcm. reflexivity.
    - right. exists EVP_aes_128_gcm. reflexivity.
    - left. split; [simpl; intros [H|[H|[]]]; discriminate|].
      exists EVP_aes_256_gcm. reflexivity.
    - right. exists EVP_aes_256_gcm. reflexivity. }
  destruct Hcase as [(Hname & cipher & ->) | (cipher & ->)].
  - unfold Laes_gcm_encrypt.
    destruct args as [|[| |key|] [|[| |iv|] [|[| |data|] rest]]]; glue_unfold;
      try (cbn [snd]; rewrite since_refl; contradiction).
    destruct (Nat.eqb_spec (length key) klen) as [Hk|]; cbn [negb];
      [|cbn [snd]; rewrite since_refl; contradiction].
    destruct (Nat.eqb_spec (length iv) 12) as [Hiv|]; glue_simpl;
      [|cbn [snd]; rewrite since_refl; contradiction].
    destruct rest as [|extra rest];
      [|cbn [snd]; rewrite since_refl; contradiction].
    intros _. exists key, iv, data. repeat split; try assumption.
    intros H. contradiction.
  - unfold Laes_gcm_decrypt.
    destruct args as [|[| |key|] [|[| |iv|] [|[| |data|] rest]]]; glue_unfold;
      try (cbn [snd]; rewrite since_refl; contradiction).
    destruct (Nat.eqb_spec (length key) klen) as [Hk|]; cbn [negb];
      [|cbn [snd]; rewrite since_refl; contradiction].
    destruct (Nat.eqb_spec (length iv) 12) as [Hiv|]; glue_simpl;
      [|cbn [snd]; rewrite since_refl; contradiction].
    destruct (Nat.ltb_spec 16 (length data)) as [Hd|]; glue_simpl;
      [|cbn [snd]; rewrite since_refl; contradiction].
    destruct rest as [|extra rest];
      [|cbn [snd]; rewrite since_refl; contradiction].
    intros _. exists key, iv, data. repeat split; try assumption.
    intros _. exact Hd.
Qed.

End Cipher.

(** ** Big-endian strings up to leading zeros *)








Lemma strip_leading_zeros_length (s : bytes) :
  (length (strip_leading_zeros s) <= length s)%nat.
Proof.
  induction s as [|b s IH]; [reflexivity|].
  cbn [strip_leading_zeros]. destruct (Byte.eqb b x00); simpl; lia.
Qed.



Section Codec.

Context {W : Type} (ssl : OpenSSL W) (LUAL_BUFFERSIZE : nat).




(** Property X19.  What [Lparse_ecdsa_signature] returns.  Whenever it
    returns, the machine is as before and the argument was a string: either
    the library could not decode it and the result is [nil], or the result
    is two strings, for the integers [r] and [s] the library decoded.  Each
    string is the big-endian magnitude of its integer (the sign is gone),
    has no leading zero byte and is at most [LUAL_BUFFERSIZE] bytes long. *)
Theorem parse_returns_minimal_magnitudes (args vs : list lua_value)
    (st st' : machine W) :
  Lparse_ecdsa_signature ssl LUAL_BUFFERSIZE args st = (Returns vs, st') ->
  st' = st
  /\ exists der,
       lua_arg args 1 = Some (LString der)
       /\ ((d2i_ECDSA_SIG ssl der = None /\ vs = [LNil])
           \/ exists r s rb sb,
                d2i_ECDSA_SIG ssl der = Some (r, s)
                /\ vs = [LString rb; LString sb]
                /\ be_decode rb = Z.abs r /\ be_decode sb = Z.abs s
                /\ hd_error rb <> Some x00 /\ hd_error sb <> Some x00
                /\ (length rb <= LUAL_BUFFERSIZE)%nat
                /\ (length sb <= LUAL_BUFFERSIZE)%nat).
Proof.
  unfold Lparse_ecdsa_signature. rewrite bind_unfold. unfold luaL_checklstring.
  destruct (lua_arg args 1) as [[| |der|]|]; try discriminate.
  unfold ret at 1.
  destruct (d2i_ECDSA_SIG ssl der) as [[r s]|] eqn:Hd.
  2: { intros H. injection H as <- <-. split; [reflexivity|].
       exists der. split; [reflexivity|]. left. split; [exact Hd|reflexivity]. }
  destruct (Nat.le_gt_cases (BN_num_bytes r) LUAL_BUFFERSIZE) as [Hr|Hr].
  2: { rewrite prepbuffer_overrun by (rewrite BN_bn2bin_length; exact Hr).
       discriminate. }
  destruct (Nat.le_gt_cases (BN_num_bytes s) LUAL_BUFFERSIZE) as [Hs|Hs].
  - pose proof (Lparse_ecdsa_signature_run ssl LUAL_BUFFERSIZE der r s st Hd Hr Hs)
      as Hrun.
    unfold Lparse_ecdsa_signature in Hrun. rewrite bind_unfold in Hrun.
    unfold luaL_checklstring in Hrun. cbn [lua_arg nth_error] in Hrun.
    unfold ret at 1 in Hrun. rewrite Hd in Hrun. rewrite Hrun.
    intros H. injection H as <- <-. split; [reflexivity|].
    exists der. split; [reflexivity|]. right.
    exists r, s, (BN_bn2bin r), (BN_bn2bin s).
    split; [exact Hd|]. split; [reflexivity|].
    split; [apply BN_bin2bn_bn2bin|]. split; [apply BN_bin2bn_bn2bin|].
    split; [apply BN_bn2bin_minimal|]. split; [apply BN_bn2bin_minimal|].
    rewrite !BN_bn2bin_length. split; assumption.
  - rewrite <- (BN_bn2bin_length r) in Hr. rewrite <- (BN_bn2bin_length s) in Hs.
    unfold luaL_prepbuffer, luaL_prepbuffsize, bind, defined, ret.
    rewrite (store_fresh _ (BN_bn2bin r)) by assumption.
    rewrite <- (BN_bn2bin_length r). rewrite pushresultsize_filled.
    rewrite store_overrun by (rewrite repeat_length; simpl; lia).
    discriminate.
Qed.

End Codec.

Section KeyMethodProperties.

Context {W : Type} (ssl : OpenSSL W) (keys : OpenSSL_keys W).

Lemma pkey_from_arg_any_key (k : pkey_ud) (rest : list lua_value) (st : machine W) :
  pkey_from_arg (LKey k :: rest) 1 0 0 st = (Returns (ud_pkey k), st).
Proof. rewrite pkey_from_arg_key. reflexivity. Qed.




(** Property X22.  [get_type] names the algorithm an import tagged the
    key with.  Called on a key object in the machine state its import left,
    it returns the short name [OBJ_nid2sn] has for the type tag of the
    object ([nil] if it has none), and changes nothing. *)
Theorem get_type_after_import (args rest : list lua_value) (k : pkey_ud)
    (st st' : machine W) :
  Limport_private_pem ssl args st = (Returns [LKey k], st')
  \/ Limport_public_pem ssl args st = (Returns [LKey k], st') ->
  method ssl keys "get_type" k rest st'
  = (Returns [lua_pushstring (OBJ_nid2sn keys (algorithm k) (world st'))], st').
Proof.
  intros Hrun.
  assert (Halg : algorithm k = EVP_PKEY_id ssl (ud_pkey k) (world st')).
  { destruct Hrun as [Hrun|Hrun].
    - destruct (Limport_private_pem_key ssl args k st st' Hrun) as (Ha & _). exact Ha.
    - destruct (Limport_public_pem_key ssl args k st st' Hrun) as (Ha & _). exact Ha. }
  change (method ssl keys "get_type" k rest)
    with (Lpkey_meth_get_type ssl keys (LKey k :: rest)).
  unfold Lpkey_meth_get_type. rewrite bind_unfold, pkey_from_arg_any_key.
  glue_unfold. rewrite Halg. reflexivity.
Qed.

End KeyMethodProperties.

(** ** Further instances on concrete inputs *)

Lemma ed25519_sign_is_key_operation : In ("ed25519_sign"%string, NID_ED25519) key_operations.
Proof. unfold key_operations, sign_operations. simpl. auto. Qed.

(** [ed25519_sign] called with the message in place of the key. *)
Lemma key_argument_required_witness :
  call Ref.ssl LUAL_BUFFERSIZE "ed25519_sign" [LString hello] (Ref.boot false)
  = (Raises (luaL_typeerror 1 PKEY_MT_TAG), Ref.boot false).
Proof.
  apply (key_argument_required Ref.ssl LUAL_BUFFERSIZE "ed25519_sign" NID_ED25519).
  - exact ed25519_sign_is_key_operation.
  - intros k. discriminate.
Defined.

(** An imported RSASSA-PSS key given to the RSASSA-PSS signing operation. *)
Lemma imported_rsa_pss_key_refused_witness :
  call Ref.ssl LUAL_BUFFERSIZE "rsassa_pss_256_sign"
    [LKey (Cases.handle (Cases.import_private Cases.rsa_pss_private_pem));
     LString hello]
    (snd (Cases.import_private Cases.rsa_pss_private_pem))
  = (Raises (TypeMismatch 1), snd (Cases.import_private Cases.rsa_pss_private_pem)).
Proof.
  apply (imported_rsa_pss_key_refused Ref.ssl LUAL_BUFFERSIZE
           [LString Cases.rsa_pss_private_pem]
           (Cases.handle (Cases.import_private Cases.rsa_pss_private_pem))
           (Ref.boot false)
           (snd (Cases.import_private Cases.rsa_pss_private_pem)))
    with (type := NID_rsaEncryption).
  - left. vm_compute. reflexivity.
  - vm_compute. reflexivity.
  - unfold key_operations, sign_operations. simpl. auto.
Defined.

(** An imported public RSA key given to the RSA signing operation. *)
Lemma imported_public_key_cannot_sign_witness :
  exists e,
    call Ref.ssl LUAL_BUFFERSIZE "rsassa_pkcs1_256_sign"
      [LKey (Cases.handle (Cases.import_public rsa_public_pem)); LString hello]
      (snd (Cases.import_public rsa_public_pem))
    = (Raises e, snd (Cases.import_public rsa_public_pem))
    /\ (e = luaL_typeerror 1 PKEY_MT_TAG
        \/ e = TypeMismatch 1 \/ e = CapabilityMismatch 1).
Proof.
  apply (proj1 (imported_public_key_cannot_sign Ref.ssl LUAL_BUFFERSIZE
                  [LString rsa_public_pem]
                  (LKey (Cases.handle (Cases.import_public rsa_public_pem)))
                  (Ref.boot false) (snd (Cases.import_public rsa_public_pem))
                  ltac:(vm_compute; reflexivity))
           "rsassa_pkcs1_256_sign"%string NID_rsaEncryption).
  simpl. auto.
Defined.

(** An imported private RSA key given to the RSA signing operation. *)
Lemma imported_private_key_signs_witness :
  exists ctx md r0 post,
    since (snd (Cases.import_private Cases.rsa_private_pem))
      (snd (call Ref.ssl LUAL_BUFFERSIZE "rsassa_pkcs1_256_sign"
              [LKey (Cases.handle (Cases.import_private Cases.rsa_private_pem));
               LString hello]
              (snd (Cases.import_private Cases.rsa_private_pem))))
    = call_EVP_MD_CTX_new ctx
      :: call_EVP_DigestSignInit ctx md
           (ud_pkey (Cases.handle (Cases.import_private Cases.rsa_private_pem))) r0
      :: post.
Proof.
  apply (proj2 (proj2 (imported_private_key_signs Ref.ssl LUAL_BUFFERSIZE
                         [LString Cases.rsa_private_pem]
                         (Cases.handle (Cases.import_private Cases.rsa_private_pem))
                         (Ref.boot false)
                         (snd (Cases.import_private Cases.rsa_private_pem))
                         "rsassa_pkcs1_256_sign"
                         ltac:(vm_compute; reflexivity)
                         ltac:(vm_compute; auto)))).
Defined.


(** A 256-byte RSA signature and a 128-byte buffer. *)
Lemma sign_overruns_small_buffer_witness :
  fst (call Ref.ssl Cases.LUAL_BUFFERSIZE "rsassa_pkcs1_256_sign"
         [LKey rsa_private; LString hello]
         (snd (Cases.import_private Cases.rsa_private_pem)))
  = Undefined buffer_overrun.
Proof.
  apply (sign_overruns_small_buffer Ref.ssl Cases.LUAL_BUFFERSIZE
           "rsassa_pkcs1_256_sign" NID_rsaEncryption
           [LKey rsa_private; LString hello]
           (snd (Cases.import_private Cases.rsa_private_pem))
           3 hello 256%nat).
  - simpl. auto.
  - vm_compute. tauto.
  - apply Nat.ltb_lt. vm_compute. reflexivity.
Defined.

(** [ed25519_verify] called without message and signature. *)
Lemma message_checked_by_verify_only_witness :
  call Ref.ssl LUAL_BUFFERSIZE "ed25519_verify" [LKey ed25519_private] after_keygen
  = (Raises (luaL_typeerror 2 "string"), after_keygen).
Proof.
  apply (proj1 (message_checked_by_verify_only Ref.ssl LUAL_BUFFERSIZE
                  "ed25519_sign" "ed25519_verify" NID_ED25519 ed25519_private []
                  after_keygen ltac:(simpl; auto) ltac:(simpl; auto)
                  eq_refl eq_refl eq_refl)).
Defined.

(** Encryption called with a fourth argument. *)
Lemma aead_extra_arguments_rejected_witness :
  call Ref.ssl LUAL_BUFFERSIZE "aes_128_gcm_encrypt"
    [LString key16; LString iv12; LString hello; LNil] (Ref.boot false)
  = (Raises (luaL_error "Expected 3 arguments, got %d" [4]), Ref.boot false).
Proof.
  apply (aead_extra_arguments_rejected Ref.ssl LUAL_BUFFERSIZE
           "aes_128_gcm_encrypt" 16 key16 iv12 hello LNil [] (Ref.boot false)).
  - simpl. auto.
  - reflexivity.
  - reflexivity.
  - left. simpl. auto.
Defined.

(** Decryption called with [nil] for the nonce and a key of the wrong length. *)
Lemma aead_type_checks_first_witness :
  call Ref.ssl LUAL_BUFFERSIZE "aes_256_gcm_decrypt"
    [LString key16; LNil; LString hello] (Ref.boot false)
  = (Raises (luaL_typeerror 2 "string"), Ref.boot false).
Proof.
  apply (aead_type_checks_first Ref.ssl LUAL_BUFFERSIZE "aes_256_gcm_decrypt" 32
           [LString key16; LNil; LString hello] 2 (Ref.boot false)).
  - simpl. auto.
  - simpl. auto.
  - reflexivity.
  - intros j Hj. assert (j = 1%nat) as -> by lia. discriminate.
Defined.




(** Parsing SEQUENCE { INTEGER 255, INTEGER 1 }. *)
Lemma parse_returns_minimal_magnitudes_witness :
  exists r s rb sb,
    Ref.d2i Cases.der_255_1 = Some (r, s)
    /\ be_decode rb = Z.abs r /\ be_decode sb = Z.abs s
    /\ hd_error rb <> Some x00 /\ hd_error sb <> Some x00
    /\ (length rb <= LUAL_BUFFERSIZE)%nat /\ (length sb <= LUAL_BUFFERSIZE)%nat.
Proof.
  destruct (parse_returns_minimal_magnitudes Ref.ssl LUAL_BUFFERSIZE
              [LString Cases.der_255_1] [LString [xff]; LString [x01]]
              (Ref.boot false) (Ref.boot false) ltac:(vm_compute; reflexivity))
    as (_ & der & Harg & [[_ Hnil] | (r & s & rb & sb & Hd & _ & H)]);
    [discriminate|].
  injection Harg as <-. exists r, s, rb, sb. split; [exact Hd|exact H].
Defined.



(** [get_type] on an imported private RSA key. *)
Lemma get_type_after_import_witness :
  method Ref.ssl RefKeys.keys "get_type"
    (Cases.handle (Cases.import_private Cases.rsa_private_pem)) []
    (snd (Cases.import_private Cases.rsa_private_pem))
  = (Returns [LString (list_byte_of_string "rsaEncryption")],
     snd (Cases.import_private Cases.rsa_private_pem)).
Proof.
  apply (get_type_after_import Ref.ssl RefKeys.keys
           [LString Cases.rsa_private_pem] []
           (Cases.handle (Cases.import_private Cases.rsa_private_pem))
           (Ref.boot false) (snd (Cases.import_private Cases.rsa_private_pem))).
  left. vm_compute. reflexivity.
Defined.

(** [ed25519_sign] reached the library: its first argument was an Ed25519
    key with private material. *)
Lemma key_operations_validate_before_calling_witness :
  exists k,
    lua_arg [LKey ed25519_private; LString hello] 1 = Some (LKey k)
    /\ algorithm k = NID_ED25519
    /\ ((In ("ed25519_sign"%string, NID_ED25519) sign_operations
         /\ has_private_material k = true)
        \/ (In ("ed25519_sign"%string, NID_ED25519) verify_operations
            /\ lua_tolstring [LKey ed25519_private; LString hello] 2 <> None
            /\ lua_tolstring [LKey ed25519_private; LString hello] 3 <> None)).
Proof.
  apply (key_operations_validate_before_calling Ref.ssl LUAL_BUFFERSIZE
           "ed25519_sign" NID_ED25519 [LKey ed25519_private; LString hello]
           after_keygen).
  - exact ed25519_sign_is_key_operation.
  - vm_compute. discriminate.
Defined.

(** Encrypting [hello] reached the library: three strings of the right
    lengths. *)
Lemma aead_validates_before_calling_witness :
  exists key iv data,
    [LString key16; LString iv12; LString hello]
    = [LString key; LString iv; LString data]
    /\ length key = 16%nat /\ length iv = 12%nat
    /\ (In "aes_128_gcm_encrypt"%string
          ["aes_128_gcm_decrypt"; "aes_256_gcm_decrypt"]%string ->
        (16 < length data)%nat).
Proof.
  apply (aead_validates_before_calling Ref.ssl LUAL_BUFFERSIZE
           "aes_128_gcm_encrypt" 16 [LString key16; LString iv12; LString hello]
           (Ref.boot false)).
  - simpl. auto.
  - vm_compute. discriminate.
Defined.

(** [import_private_pem] and [import_public_pem] called with [nil]. *)
Lemma import_requires_string_witness :
  exists bio w,
    Limport_private_pem Ref.ssl [LNil] (Ref.boot false)
    = (Raises (luaL_typeerror 1 "string"),
       {| world := w; calls := [call_BIO_new_mem bio] |})
    /\ Limport_public_pem Ref.ssl [LNil] (Ref.boot false)
       = (Raises (luaL_typeerror 1 "string"),
          {| world := w; calls := [call_BIO_new_mem bio] |}).
Proof.
  apply (import_requires_string Ref.ssl [LNil] (Ref.boot false)).
  reflexivity.
Defined.


(** A signature with leading zero bytes in both integers. *)
Lemma ref_codec_roundtrip_p256_witness :
  exists rb sb der',
    Lparse_ecdsa_signature Ref.ssl LUAL_BUFFERSIZE
      [LString [x30; x08; x02; x02; x00; xff; x02; x02; x00; x80]] (Ref.boot false)
    = (Returns [LString rb; LString sb], Ref.boot false)
    /\ hd_error rb <> Some x00 /\ hd_error sb <> Some x00
    /\ be_decode rb = Z.abs 255 /\ be_decode sb = Z.abs 128
    /\ Lbuild_ecdsa_signature Ref.ssl LUAL_BUFFERSIZE [LString rb; LString sb]
         (Ref.boot false)
       = (Returns [LString der'], Ref.boot false)
    /\ Lparse_ecdsa_signature Ref.ssl LUAL_BUFFERSIZE [LString der'] (Ref.boot false)
       = (Returns [LString rb; LString sb], Ref.boot false).
Proof.
  apply (ref_codec_roundtrip_p256 LUAL_BUFFERSIZE
           [x30; x08; x02; x02; x00; xff; x02; x02; x00; x80] 255 128
           (Ref.boot false)).
  - apply Nat.leb_le. vm_compute. reflexivity.
  - vm_compute. reflexivity.
  - vm_compute. reflexivity.
  - vm_compute. reflexivity.
Defined.
